(** * pydigree: genotype containers, marker templates and IBS

    A shallow embedding of [pydigree/genotypes.py] (the dense and the sparse
    genotype containers and the chromosome template) together with the parts
    of Python and numpy the module leans on, followed by the properties the
    specification states about them.

    Conventions.
    - A call that can raise returns a [result]: [Ok v] or [Raise e].
    - A one-dimensional numpy array is a homogeneous list tagged with its
      dtype ([IntArray] or [StrArray]); integers are unbounded [Z], the
      code never does arithmetic on allele codes.
    - Floats (frequencies, random draws) are rationals [Q]: every float is a
      rational and the code only compares them.
    - Python sets are [gset nat]; a class namespace is a [gmap string _]. *)

From Stdlib Require Import ZArith QArith Qround Ascii String List Lia Bool.
From stdpp Require Import base option list sorting gmap gmultiset sets strings.

Local Open Scope string_scope.
Local Open Scope Z_scope.
Local Open Scope list_scope.

(** ** Python: exceptions and results *)

Module Py.

Inductive exn : Type :=
| NotMeaningfulError   (* class NotMeaningfulError(Exception) *)
| ValueError
| IndexError
| AttributeError
| TypeError
| OverflowError.

Inductive result (A : Type) : Type :=
| Ok (a : A)
| Raise (e : exn).
Arguments Ok {A} a.
Arguments Raise {A} e.

#[export] Instance result_ret : MRet result := fun A a => Ok a.
#[export] Instance result_bind : MBind result := fun A B f m =>
  match m with
  | Ok a => f a
  | Raise e => Raise e
  end.

(** Left-to-right loop whose body may raise. *)
Fixpoint for_each {A S} (body : S -> A -> result S) (xs : list A) (s : S)
  : result S :=
  match xs with
  | [] => Ok s
  | x :: xs' => s' ← body s x; for_each body xs' s'
  end.

(** The values a call returns when the claims need to tell [None] from a
    number. *)
Inductive pyval : Type :=
| PyNone
| PyInt (z : Z).

End Py.
Export Py.

(** ** numpy: one-dimensional arrays *)

Module Numpy.

(** An array element seen from Python. *)
Inductive allele : Type :=
| AInt (z : Z)
| AStr (s : string).

#[export] Instance allele_eq_dec : EqDecision allele.
Proof. solve_decision. Defined.

Definition allele_to_sum (x : allele) : Z + string :=
  match x with AInt z => inl z | AStr s => inr s end.
Definition allele_of_sum (x : Z + string) : allele :=
  match x with inl z => AInt z | inr s => AStr s end.

#[export] Instance allele_countable : Countable allele.
Proof.
  apply (inj_countable' allele_to_sum allele_of_sum).
  intros []; reflexivity.
Defined.

(** Python's [x == y] on two scalars: values of different types are
    unequal, never an error. *)
Definition py_eqb (x y : allele) : bool := bool_decide (x = y).

Inductive dtype : Type := IntDtype | StrDtype.

(** [np.issubdtype(dt, np.integer)] *)
Definition is_integer (dt : dtype) : bool :=
  match dt with IntDtype => true | StrDtype => false end.

Inductive ndarray : Type :=
| IntArray (l : list Z)
| StrArray (l : list string).

Definition dtype_of (a : ndarray) : dtype :=
  match a with IntArray _ => IntDtype | StrArray _ => StrDtype end.

(** Iterating an array yields its elements in order. *)
Definition items (a : ndarray) : list allele :=
  match a with
  | IntArray l => AInt <$> l
  | StrArray l => AStr <$> l
  end.

(** [a.shape[0]], also [a.size] for one dimension. *)
Definition ndarray_size (a : ndarray) : nat := length (items a).

(** [np.zeros(n, dtype=dt)]: [0] for integers, the empty string for
    strings. *)
Definition zeros (n : nat) (dt : dtype) : ndarray :=
  match dt with
  | IntDtype => IntArray (replicate n 0)
  | StrDtype => StrArray (replicate n "")
  end.

(** [base[i] = v] on a boolean array: numpy raises [IndexError] when [i] is
    out of bounds. *)
Definition setitem {A} (base : list A) (i : nat) (v : A) : result (list A) :=
  if decide (i < length base)%nat then Ok (<[i:=v]> base) else Raise IndexError.

(** What an elementwise operator hands back: a boolean array, or a bare
    Python boolean. *)
Inductive npvalue : Type :=
| Mask (m : list bool)
| Scalar (b : bool).

(** Broadcasting of two one-dimensional operands: equal lengths pair up,
    a length-one operand is stretched, anything else does not broadcast. *)
Definition broadcast {A} (f : A -> A -> bool) (x y : list A)
  : option (list bool) :=
  if decide (length x = length y) then Some (zip_with f x y)
  else match x, y with
       | [x0], _ => Some (f x0 <$> y)
       | _, [y0] => Some ((fun e => f e y0) <$> x)
       | _, _ => None
       end.

(** [ndarray.__eq__]. In the numpy releases that run under Python 2 (the
    module imports [itertools.izip]) a comparison that cannot be carried
    out elementwise, because the shapes do not broadcast or the dtypes have
    no common comparison, is not an error: [==] evaluates to the scalar
    [False]. *)
Definition ndarray_eq (a b : ndarray) : npvalue :=
  match a, b with
  | IntArray x, IntArray y =>
      from_option Mask (Scalar false) (broadcast Z.eqb x y)
  | StrArray x, StrArray y =>
      from_option Mask (Scalar false) (broadcast String.eqb x y)
  | _, _ => Scalar false
  end.

Inductive cmpop : Type := OpLt | OpGt | OpLe | OpGe.

Definition Z_cmp (op : cmpop) : Z -> Z -> bool :=
  match op with
  | OpLt => Z.ltb
  | OpGt => Z.gtb
  | OpLe => Z.leb
  | OpGe => Z.geb
  end.

Definition string_cmp (op : cmpop) (s t : string) : bool :=
  match op with
  | OpLt => String.ltb s t
  | OpGt => String.ltb t s
  | OpLe => String.leb s t
  | OpGe => String.leb t s
  end.

Section RichCompare.
(** numpy's outcome for an ordering comparison between an integer and a
    string array. It changed between releases and no claim depends on
    it, so it stays a parameter. *)
Variable mixed_dtype_outcome : result npvalue.

(** [ndarray.__lt__], [__gt__], [__le__], [__ge__]: elementwise with
    broadcasting; shapes that do not broadcast raise [ValueError]. *)
Definition ndarray_richcmp (op : cmpop) (a b : ndarray) : result npvalue :=
  match a, b with
  | IntArray x, IntArray y =>
      from_option (fun m => Ok (Mask m)) (Raise ValueError)
                  (broadcast (Z_cmp op) x y)
  | StrArray x, StrArray y =>
      from_option (fun m => Ok (Mask m)) (Raise ValueError)
                  (broadcast (string_cmp op) x y)
  | _, _ => mixed_dtype_outcome
  end.
End RichCompare.

(** The part of the numpy module namespace the containers reach for. *)
Inductive npfun : Type := NpZeros | NpOnes | NpAsarray | NpLogicalNot.

Definition numpy_namespace : gmap string npfun :=
  {[ "zeros" := NpZeros; "ones" := NpOnes; "asarray" := NpAsarray;
     "logical_not" := NpLogicalNot ]}.

(** [np.<name>] *)
Definition np_getattr (name : string) : result npfun :=
  match numpy_namespace !! name with
  | Some f => Ok f
  | None => Raise AttributeError
  end.

End Numpy.
Export Numpy.

(** ** GenotypedChromosome: the dense container

    [class GenotypedChromosome(np.ndarray)]: the object is the array itself
    ([__new__] only re-views the data); the class body adds four methods and
    one property to what [np.ndarray] already provides. *)

Module GenotypedChromosome.

Inductive method : Type :=
| RaiseNotMeaningful            (* raise NotMeaningfulError(...) *)
| NdarrayCompare (op : cmpop)   (* np.ndarray's own rich comparison *)
| NewView                       (* __new__ *)
| MissingProperty.              (* missing *)

(** The names the class body binds, as spelled in the source. *)
Definition class_namespace : gmap string method :=
  {[ "__new__" := NewView;
     "__lt__" := RaiseNotMeaningful;
     "__gt__" := RaiseNotMeaningful;
     "__lte__" := RaiseNotMeaningful;
     "__gte__" := RaiseNotMeaningful;
     "missing" := MissingProperty ]}.

(** The ordering methods of the base class [np.ndarray]. *)
Definition ndarray_namespace : gmap string method :=
  {[ "__lt__" := NdarrayCompare OpLt;
     "__gt__" := NdarrayCompare OpGt;
     "__le__" := NdarrayCompare OpLe;
     "__ge__" := NdarrayCompare OpGe ]}.

(** Attribute lookup along the method resolution order: the class first,
    then its base. *)
Definition mro_lookup (name : string) : option method :=
  match class_namespace !! name with
  | Some m => Some m
  | None => ndarray_namespace !! name
  end.

(** The special method Python calls for each ordering operator. *)
Definition special_method (op : cmpop) : string :=
  match op with
  | OpLt => "__lt__"
  | OpGt => "__gt__"
  | OpLe => "__le__"
  | OpGe => "__ge__"
  end.

Section Compare.
Variable mixed_dtype_outcome : result npvalue.

(** [self < other], [self > other], [self <= other], [self >= other]
    with a dense container on the left. *)
Definition compare (op : cmpop) (self other : ndarray) : result npvalue :=
  match mro_lookup (special_method op) with
  | Some RaiseNotMeaningful => Raise NotMeaningfulError
  | Some (NdarrayCompare op') =>
      ndarray_richcmp mixed_dtype_outcome op' self other
  | Some _ | None => Raise TypeError
  end.
End Compare.

(** [self == other]: inherited from [np.ndarray], the class defines no
    [__eq__]. *)
Definition __eq__ (self other : ndarray) : result npvalue :=
  Ok (ndarray_eq self other).

(** The [missing] property. *)
Definition missing (self : ndarray) : list bool :=
  match self with
  | IntArray l => (fun z => Z.eqb z 0) <$> l        (* self == 0 *)
  | StrArray l => (fun s => String.eqb s "") <$> l  (* self == '' *)
  end.

End GenotypedChromosome.

(** ** SparseGenotypedChromosome: the sparse container *)

Module SparseGenotypedChromosome.

Record t : Type := mk {
  dtype : Numpy.dtype;
  size : nat;
  non_refalleles : list (nat * allele);
  missingindices : list nat
}.

(** [enumerate(data)] *)
Definition enumerate {A} (l : list A) : list (nat * A) := imap pair l.

(** [refcode = 0 if np.issubdtype(self.dtype, np.integer) else '0'] *)
Definition refcode (dt : Numpy.dtype) : allele :=
  if is_integer dt then AInt 0 else AStr "0".

(** [[(i,x) for i,x in enumerate(data) if x != refcode]] *)
Definition array2nonref (dt : Numpy.dtype) (data : ndarray)
  : list (nat * allele) :=
  List.filter (fun ix => negb (py_eqb ix.2 (refcode dt)))
              (enumerate (items data)).

(** [[i for i,x in enumerate(data) if x == '']] *)
Definition array2missing (data : ndarray) : list nat :=
  fst <$> List.filter (fun ix => py_eqb ix.2 (AStr ""))
                      (enumerate (items data)).

(** [__init__] *)
Definition __init__ (data : ndarray) : t :=
  {| dtype := dtype_of data;
     size := ndarray_size data;
     non_refalleles := array2nonref (dtype_of data) data;
     missingindices := array2missing data |}.

(** The [missing] property: [base[self.missingindices] = 1] on a mask of
    zeros. *)
Definition missing (self : t) : result (list bool) :=
  for_each (fun base i => setitem base i true)
           (missingindices self)
           (replicate (size self) false).

(** [lst[i]] on a Python list, for a non-negative [i]. *)
Definition getitem {A} (lst : list A) (i : nat) : result A :=
  match lst !! i with
  | Some x => Ok x
  | None => Raise IndexError
  end.

(** [set.symmetric_difference] *)
Definition symmetric_difference (a b : gset nat) : gset nat :=
  (a ∖ b) ∪ (b ∖ a).

(** The two loops of [__eq__], over the positions in the order the two
    sets hand them out. *)
Definition compare_positions (self other : t) (differing shared : list nat)
  : result (list bool) :=
  base ← for_each (fun base i => setitem base i false)
                  differing
                  (replicate (size self) true);
  for_each (fun base i =>
              x ← getitem (non_refalleles self) i;
              y ← getitem (non_refalleles other) i;
              if decide (x ≠ y) then setitem base i false else Ok base)
           shared
           base.

(** [__eq__]. Python does not fix the order in which a set is iterated;
    [elements] is one such order, and [compare_positions] gives the same
    outcome for every other one. *)
Definition __eq__ (self other : t) : result (list bool) :=
  if decide (size self ≠ size other) then Raise ValueError
  else
    let nonreflocs_a : gset nat := list_to_set (fst <$> non_refalleles self) in
    let nonreflocs_b : gset nat := list_to_set (fst <$> non_refalleles other) in
    compare_positions self other
      (elements (symmetric_difference nonreflocs_a nonreflocs_b))
      (elements (nonreflocs_a ∩ nonreflocs_b)).

(** [__neq__] *)
Definition __neq__ (self other : t) : result (list bool) :=
  m ← __eq__ self other; Ok (negb <$> (m : list bool)).

(** What an attribute of an instance can hold. *)
Inductive attr : Type :=
| AttrDtype (dt : Numpy.dtype)
| AttrInt (n : nat)
| AttrPairs (l : list (nat * allele))
| AttrIndices (l : list nat)
| AttrMethod.

(** The attributes [__init__] sets on the instance. *)
Definition instance_namespace (self : t) : gmap string attr :=
  {[ "dtype" := AttrDtype (dtype self);
     "size" := AttrInt (size self);
     "non_refalleles" := AttrPairs (non_refalleles self);
     "missingindices" := AttrIndices (missingindices self) ]}.

(** The names the class body binds (double-underscore names are mangled). *)
Definition class_namespace : gmap string attr :=
  {[ "__init__" := AttrMethod;
     "_SparseGenotypedChromosome__array2nonref" := AttrMethod;
     "_SparseGenotypedChromosome__array2missing" := AttrMethod;
     "missing" := AttrMethod;
     "__eq__" := AttrMethod;
     "__neq__" := AttrMethod;
     "todense" := AttrMethod ]}.

(** [self.<name>] *)
Definition getattr (self : t) (name : string) : result attr :=
  match instance_namespace self !! name with
  | Some v => Ok v
  | None =>
      match class_namespace !! name with
      | Some v => Ok v
      | None => Raise AttributeError
      end
  end.

(** Calling a numpy function on [(n, dtype=dt)]. *)
Definition np_call (f : npfun) (n dt : attr) : result ndarray :=
  match f, n, dt with
  | NpZeros, AttrInt n, AttrDtype dt => Ok (zeros n dt)
  | _, _, _ => Raise TypeError
  end.

(** [arr[i] = x]. An element of the array's own type is stored; storing
    one of the other type would go through numpy's casts, which are left
    out here ([TypeError] stands in for them). *)
Definition array_setitem (arr : ndarray) (ix : nat * allele) : result ndarray :=
  match arr, ix.2 with
  | IntArray l, AInt z => l' ← setitem l ix.1 z; Ok (IntArray l')
  | StrArray l, AStr s => l' ← setitem l ix.1 s; Ok (StrArray l')
  | _, _ => Raise TypeError
  end.

(** [todense], name by name as the source spells them:
    [np.zeroes], [self.nmark], [self.dtype], [self.nonref_alleles]. *)
Definition todense (self : t) : result ndarray :=
  zeroes ← np_getattr "zeroes";
  nmark ← getattr self "nmark";
  dt ← getattr self "dtype";
  arr ← np_call zeroes nmark dt;
  pairs ← getattr self "nonref_alleles";
  match pairs with
  | AttrPairs l => for_each array_setitem l arr
  | _ => Raise TypeError
  end.

End SparseGenotypedChromosome.

(** ** ChromosomeTemplate: the marker template *)

Module ChromosomeTemplate.

Record t : Type := mk {
  label : option string;            (* chromosome name *)
  genetic_map : list Q;             (* positions in cM *)
  physical_map : list (option Z);   (* base pairs, decoration only *)
  frequencies : list Q;             (* np.array of minor allele frequencies *)
  labels : list (option string)     (* marker names *)
}.

(** [__init__(label=None)] *)
Definition __init__ (label : option string) : t :=
  {| label := label; genetic_map := []; physical_map := [];
     frequencies := []; labels := [] |}.

(** [nmark()] *)
Definition nmark (self : t) : nat := length (genetic_map self).

(** Why [float()] rejects a value: a string that is no number
    ([ValueError]), an integer too large for a float ([OverflowError]), or
    a value of a type [float()] does not take ([TypeError]). For the last
    kind [message_formats] says whether ['... %s' % frequency] can be
    built: it cannot when the value is a tuple whose length is not 1. *)
Inductive rejection : Type :=
| BadString
| TooLarge
| BadType (message_formats : bool).

(** What a caller may pass as [frequency]: [None], something [float()]
    accepts, or something it rejects. *)
Inductive frequency_arg : Type :=
| FreqNone
| FreqFloat (q : Q)
| FreqNotNumeric (why : rejection).

(** [float(frequency)] *)
Definition py_float (frequency : frequency_arg) : result Q :=
  match frequency with
  | FreqFloat q => Ok q
  | FreqNone | FreqNotNumeric (BadType _) => Raise TypeError
  | FreqNotNumeric BadString => Raise ValueError
  | FreqNotNumeric TooLarge => Raise OverflowError
  end.

(** ['Invalid value for frequency %s' % frequency] *)
Definition format_message (frequency : frequency_arg) : result unit :=
  match frequency with
  | FreqNotNumeric (BadType false) => Raise TypeError
  | _ => Ok ()
  end.

(** The [try] block: [float(frequency) if frequency is not None else -1],
    with [except TypeError: raise ValueError(message)]. Other errors of
    [float()] pass through, and so does an error of building the
    message. *)
Definition to_frequency (frequency : frequency_arg) : result Q :=
  match frequency with
  | FreqNone => Ok (-1)%Q
  | _ =>
      match py_float frequency with
      | Raise TypeError => _ ← format_message frequency; Raise ValueError
      | outcome => outcome
      end
  end.

(** [add_genotype(frequency, map_position, label=None, bp=None)]. The only
    statement that can raise comes before the first append. *)
Definition add_genotype (self : t) (frequency : frequency_arg)
           (map_position : Q) (lbl : option string) (bp : option Z)
  : result t :=
  frequency ← to_frequency frequency;
  Ok {| label := label self;
        genetic_map := genetic_map self ++ [map_position];
        frequencies := frequencies self ++ [frequency];
        physical_map := physical_map self ++ [bp];
        labels := labels self ++ [lbl] |}.

(** Python indexing into a sequence of [n] items: a negative index counts
    from the end, anything outside [-n .. n-1] is out of range. *)
Definition index (n : nat) (position : Z) : option nat :=
  if decide (0 <= position < Z.of_nat n) then Some (Z.to_nat position)
  else if decide (- Z.of_nat n <= position < 0)
       then Some (Z.to_nat (Z.of_nat n + position))
       else None.

(** [set_frequency(position, frequency)]:
    [self.frequencies[position] = frequency] *)
Definition set_frequency (self : t) (position : Z) (frequency : Q)
  : result t :=
  match index (length (frequencies self)) position with
  | Some i =>
      Ok {| label := label self;
            genetic_map := genetic_map self;
            frequencies := <[i:=frequency]> (frequencies self);
            physical_map := physical_map self;
            labels := labels self |}
  | None => Raise IndexError
  end.

(** [empty_chromosome(dtype=np.uint8)] *)
Definition empty_chromosome (self : t) : ndarray :=
  zeros (nmark self) IntDtype.

(** The mutating calls, as data, and the template they leave behind. A call
    that raises does so before it has written anything. *)
Inductive op : Type :=
| AddGenotype (frequency : frequency_arg) (map_position : Q)
              (lbl : option string) (bp : option Z)
| SetFrequency (position : Z) (frequency : Q).

Definition call (self : t) (o : op) : result t :=
  match o with
  | AddGenotype f m l b => add_genotype self f m l b
  | SetFrequency p f => set_frequency self p f
  end.

Definition after (self : t) (o : op) : t :=
  match call self o with
  | Ok self' => self'
  | Raise _ => self
  end.

(** The template after each call of a sequence, in order. *)
Fixpoint trace (self : t) (ops : list op) : list t :=
  match ops with
  | [] => []
  | o :: ops' => after self o :: trace (after self o) ops'
  end.

(** The four parallel sequences have one length. *)
Definition equal_lengths (self : t) : Prop :=
  length (physical_map self) = length (genetic_map self)
  ∧ length (labels self) = length (genetic_map self)
  ∧ length (frequencies self) = length (genetic_map self).

(** [r > f] on two floats. *)
Definition greater (r f : Q) : bool := negb (Qle_bool r f).

(** [np.uint8(b) + 1] *)
Definition allele_code (b : bool) : Z := (if b then 1 else 0) + 1.

(** The code one draw [r] gives at a marker of frequency [f]. *)
Definition marker_code (r f : Q) : Z := allele_code (greater r f).

(** [np.array(r > self.frequencies, dtype=np.uint8) + 1] *)
Definition draw_codes (r fs : list Q) : result ndarray :=
  match broadcast greater r fs with
  | Some m => Ok (IntArray (allele_code <$> m))
  | None => Raise ValueError
  end.

(** [linkageequilibrium_chromosome()]; [random k] is the [k]-th number
    [np.random.random(self.nmark())] hands out. *)
Definition linkageequilibrium_chromosome (random : nat -> Q) (self : t)
  : result ndarray :=
  if existsb (fun f => negb (Qle_bool 0 f)) (frequencies self)
  then Raise ValueError
  else draw_codes (random <$> seq 0 (nmark self)) (frequencies self).

(** [linkageequilibrium_chromosomes(nchrom)]; [random j k] is entry
    [(j, k)] of the batch [np.random.random((nchrom, self.nmark()))]. The
    comparison is one broadcast over the whole batch, so its shapes are
    checked even when the batch has no rows. *)
Definition linkageequilibrium_chromosomes (random : nat -> nat -> Q)
           (self : t) (nchrom : nat) : result (list ndarray) :=
  _ ← draw_codes (replicate (nmark self) 0%Q) (frequencies self);
  for_each (fun chroms j =>
              r ← draw_codes (random j <$> seq 0 (nmark self))
                             (frequencies self);
              Ok (chroms ++ [r]))
           (seq 0 nchrom) [].

(** Uniform draws on the grid [0/N, 1/N, ..., (N-1)/N] of [0,1): the
    number of grid points that give code 2 at frequency [f], and their
    share of the grid. ([np.random.random] draws on such a grid, with
    [N = 2^53].) *)
Definition grid_point (N : positive) (k : nat) : Q := Z.of_nat k # N.

Definition code2_count (N : positive) (f : Q) (m : nat) : nat :=
  length (List.filter (fun k => Z.eqb (marker_code (grid_point N k) f) 2)
                      (seq 0 m)).

Definition code2_probability (N : positive) (f : Q) : Q :=
  Z.of_nat (code2_count N f (Pos.to_nat N)) # N.

(** The template after a whole sequence of calls. *)
Definition run (self : t) (ops : list op) : t := foldl after self ops.

(** Whether a call appends a marker: an [add_genotype] whose frequency
    [float()] accepts, or [None]. *)
Definition appends (o : op) : bool :=
  match o with
  | AddGenotype (FreqNotNumeric _) _ _ _ => false
  | AddGenotype _ _ _ _ => true
  | SetFrequency _ _ => false
  end.

Section Size.
(** The difference of two floats, rounded to a float as Python computes
    it. The model keeps floats as the rationals they denote and has no
    rounding of its own, so the operation is a parameter. *)
Variable float_sub : Q -> Q -> Q.

(** [size()]: [self.genetic_map[-1] - self.genetic_map[0]]; either
    subscript raises [IndexError] on an empty list. *)
Definition size (self : t) : result Q :=
  match last (genetic_map self), head (genetic_map self) with
  | Some hi, Some lo => Ok (float_sub hi lo)
  | _, _ => Raise IndexError
  end.
End Size.

(** [__iter__()]: [izip(self.labels, self.genetic_map, self.physical_map)],
    read to its end. [izip] stops with the shortest argument. *)
Definition __iter__ (self : t) : list (option string * Q * option Z) :=
  zip (zip (labels self) (genetic_map self)) (physical_map self).

(** [_iinfo()]: the same with [self.frequencies] as fourth component. *)
Definition _iinfo (self : t) : list (option string * Q * option Z * Q) :=
  zip (__iter__ self) (frequencies self).

End ChromosomeTemplate.

(** ** IBS: identity by state *)

Module IBS.

(** Modelled from the spec: a diploid genotype at one marker, the allele of
    each strand (section 4.4; [pydigree/ibs.py] is not among the sources). *)
Definition genotype : Type := allele * allele.

(** Modelled from the spec: the missing code of either encoding, [0] or the
    empty string. *)
Definition is_missing_code (x : allele) : bool :=
  match x with
  | AInt z => Z.eqb z 0
  | AStr s => String.eqb s ""
  end.

(** Modelled from the spec: a genotype that consists of the missing code
    only. *)
Definition all_missing (g : genotype) : bool :=
  is_missing_code g.1 && is_missing_code g.2.

(** Modelled from the spec: a genotype as a two-element multiset. *)
Definition alleles (g : genotype) : gmultiset allele := {[+ g.1; g.2 +]}.

(** Modelled from the spec: [pydigree/ibs.py] is not among the sources, so
    [ibs] follows section 4.4: a genotype made of the missing code only
    makes the comparison undefined and [missing_value] is returned;
    otherwise the result is the size of the multiset intersection of the
    two genotypes, capped at 2. *)
Definition ibs (genotype1 genotype2 : genotype) (missing_value : pyval)
  : pyval :=
  if all_missing genotype1 || all_missing genotype2 then missing_value
  else PyInt (Z.of_nat
                (Nat.min 2 (size (alleles genotype1 ∩ alleles genotype2)))).

(** Modelled from the spec: the two encodings behind one argument type. *)
Inductive container : Type :=
| Dense (a : ndarray)
| Sparse (s : SparseGenotypedChromosome.t).

(** Modelled from the spec: the marker count of a container. *)
Definition container_size (c : container) : nat :=
  match c with
  | Dense a => ndarray_size a
  | Sparse s => SparseGenotypedChromosome.size s
  end.

(** Modelled from the spec: the dense view of a container. A dense one is
    its own view, a sparse one is asked for [todense()]. *)
Definition dense_view (c : container) : result ndarray :=
  match c with
  | Dense a => Ok a
  | Sparse s => SparseGenotypedChromosome.todense s
  end.

(** Modelled from the spec: the integer stored for one marker. *)
Definition ibs_state (missing_value : Z) (g1 g2 : genotype) : Z :=
  match ibs g1 g2 (PyInt missing_value) with
  | PyInt z => z
  | PyNone => missing_value
  end.

(** Modelled from the spec: [chromwide_ibs] is not among the sources
    either. Following sections 4.4 and 7 it refuses strands of different
    marker counts with a value error, materialises the dense view of each
    strand before the per-marker loop, and stores [ibs] of the two
    genotypes at every marker, with the numeric [missing_value]. *)
Definition chromwide_ibs (strandA1 strandB1 strandA2 strandB2 : container)
           (missing_value : Z) : result (list Z) :=
  let n := container_size strandA1 in
  if decide (container_size strandB1 = n ∧ container_size strandA2 = n
             ∧ container_size strandB2 = n)
  then
    a ← dense_view strandA1;
    b ← dense_view strandB1;
    c ← dense_view strandA2;
    d ← dense_view strandB2;
    Ok (zip_with (fun g1 g2 => ibs_state missing_value g1 g2)
                 (zip (items a) (items b)) (zip (items c) (items d)))
  else Raise ValueError.

End IBS.

(** ** pydigree.io.base: genotypes from a flat allele sequence *)

Module IO.

(** [Chromobj]: the class the caller picked, applied to a slice. *)
Inductive chromobj : Type :=
| DenseChrom (a : ndarray)
| SparseChrom (s : SparseGenotypedChromosome.t).

Definition Chromobj (sparse : bool) (data : ndarray) : chromobj :=
  if sparse then SparseChrom (SparseGenotypedChromosome.__init__ data)
  else DenseChrom data.

(** [type(missing_code)] as a dtype: [int] or [str]. *)
Definition type_of (missing_code : allele) : dtype :=
  match missing_code with
  | AInt _ => IntDtype
  | AStr _ => StrDtype
  end.

(** [np.issubdtype(type(missing_code), data.dtype)]. A [str] code fits an
    array of Python 2 strings and no integer array; an [int] code fits no
    string array. Whether an [int] code fits an integer array depends on
    the concrete dtype ([True] for the signed array [np.array] makes of
    Python integers, [False] for an unsigned one such as [uint8]); the
    array model does not carry width or signedness, so that answer is the
    argument [int_code_fits]. *)
Definition issubdtype (int_code_fits : bool) (t d : dtype) : bool :=
  match t, d with
  | IntDtype, IntDtype => int_code_fits
  | StrDtype, StrDtype => true
  | _, _ => false
  end.

(** The number of [{}] fields of a format string. *)
Fixpoint count_fields (template : string) : nat :=
  match template with
  | String "{"%char (String "}"%char rest) => S (count_fields rest)
  | String _ rest => count_fields rest
  | EmptyString => 0%nat
  end.

(** [template.format(arg, ...)] with automatically numbered fields: every field
    takes the next positional argument, and a field without one raises
    [IndexError]. Only the outcome is kept, the text is an error message. *)
Definition str_format (template : string) (nargs : nat) : result unit :=
  if decide (count_fields template ≤ nargs)%nat then Ok () else Raise IndexError.

(** [data[data == missing_code] = ''] for a string array,
    [data[data == missing_code] = 0] otherwise. *)
Definition replace_missing (data : ndarray) (missing_code : allele) : ndarray :=
  match data with
  | StrArray l =>
      StrArray ((fun s => if py_eqb (AStr s) missing_code then "" else s) <$> l)
  | IntArray l =>
      IntArray ((fun z => if py_eqb (AInt z) missing_code then 0 else z) <$> l)
  end.

(** [l[0::2]] *)
Fixpoint stride2 {A} (l : list A) : list A :=
  match l with
  | x :: _ :: rest => x :: stride2 rest
  | [x] => [x]
  | [] => []
  end.

(** A slice applied to an array keeps its dtype. *)
Definition on_items (f : forall A, list A -> list A) (a : ndarray) : ndarray :=
  match a with
  | IntArray l => IntArray (f Z l)
  | StrArray l => StrArray (f string l)
  end.

(** [data[0::2]] and [data[1::2]] *)
Definition strand_a (data : ndarray) : ndarray :=
  on_items (fun A l => stride2 l) data.
Definition strand_b (data : ndarray) : ndarray :=
  on_items (fun A l => stride2 (drop 1 l)) data.

(** [a[start:stop]] for [0 <= start <= stop]: a slice past the end is cut
    short, it never raises. *)
Definition slice (start stop : nat) (a : ndarray) : ndarray :=
  on_items (fun A l => take (stop - start) (drop start l)) a.

(** The loop over [sizes], with its running [start]. *)
Fixpoint split_strands (sparse : bool) (a b : ndarray) (start : nat)
         (sizes : list nat) : list (chromobj * chromobj) :=
  match sizes with
  | [] => []
  | size :: rest =>
      let stop := (start + size)%nat in
      (Chromobj sparse (slice start stop a), Chromobj sparse (slice start stop b))
        :: split_strands sparse a b (start + size) rest
  end.

(** [genotypes_from_sequential_alleles(chromosomes, data, missing_code='0',
    sparse=False)]. The message of the [ValueError] is formatted first:
    two fields, one argument (a list). *)
Definition genotypes_from_sequential_alleles (int_code_fits : bool)
           (chromosomes : list ChromosomeTemplate.t) (data : ndarray)
           (missing_code : allele) (sparse : bool)
  : result (list (chromobj * chromobj)) :=
  if negb (issubdtype int_code_fits (type_of missing_code) (dtype_of data))
  then
    _ ← str_format "Invalid type for missing code: {}. Expected: {}" 1;
    Raise ValueError
  else
    let data := replace_missing data missing_code in
    let sizes := ChromosomeTemplate.nmark <$> chromosomes in
    Ok (split_strands sparse (strand_a data) (strand_b data) 0 sizes).

End IO.

(** A loop whose steps either leave the mask alone or clear one position. *)
Definition clearing (body : list bool → nat → result (list bool)) : Prop :=
  ∀ b i b', body b i = Ok b' →
            b' = b ∨ ((i < length b)%nat ∧ b' = <[i:=false]> b).

(** * Properties *)

Module Sparse := SparseGenotypedChromosome.
Module Template := ChromosomeTemplate.

(** ** Ordering comparisons on the dense container *)

(** The class binds [__lte__] and [__gte__]; Python looks for [__le__] and
    [__ge__], which only the base class has. *)
Lemma dense_le_ge_resolve_to_ndarray :
  GenotypedChromosome.class_namespace !! "__le__" = None
  ∧ GenotypedChromosome.class_namespace !! "__ge__" = None
  ∧ GenotypedChromosome.mro_lookup "__le__" = Some (GenotypedChromosome.NdarrayCompare OpLe)
  ∧ GenotypedChromosome.mro_lookup "__ge__" = Some (GenotypedChromosome.NdarrayCompare OpGe).
Proof. repeat split; vm_compute; reflexivity. Qed.

(** [<] and [>] raise the dedicated error whatever the operands are. *)
Lemma dense_lt_gt_raise (mixed : result npvalue) (self other : ndarray) :
  GenotypedChromosome.compare mixed OpLt self other = Raise NotMeaningfulError
  ∧ GenotypedChromosome.compare mixed OpGt self other = Raise NotMeaningfulError.
Proof. split; reflexivity. Qed.

(** [<=] and [>=] are numpy's own comparisons, for all operands. *)
Lemma dense_le_ge_inherited (mixed : result npvalue) (self other : ndarray) :
  GenotypedChromosome.compare mixed OpLe self other
  = ndarray_richcmp mixed OpLe self other
  ∧ GenotypedChromosome.compare mixed OpGe self other
    = ndarray_richcmp mixed OpGe self other.
Proof. split; reflexivity. Qed.

(** C6 (the code departs from the claim): on the dense container [[1, 2]]
    compared with [[2, 1]], [<=] and [>=] do not raise [NotMeaningfulError]:
    each returns numpy's elementwise mask, while [<] and [>] on the same
    operands raise as claimed. *)
Theorem dense_le_ge_return_masks (mixed : result npvalue) :
  let self := IntArray [1; 2] in
  let other := IntArray [2; 1] in
  GenotypedChromosome.compare mixed OpLe self other = Ok (Mask [true; false])
  ∧ GenotypedChromosome.compare mixed OpGe self other = Ok (Mask [false; true])
  ∧ GenotypedChromosome.compare mixed OpLt self other = Raise NotMeaningfulError
  ∧ GenotypedChromosome.compare mixed OpGt self other = Raise NotMeaningfulError.
Proof. repeat split; reflexivity. Qed.

(** ** Size checks *)







(** ** Sparse equality *)

(** C2 (the code departs from the claim): [[1,0,1,1]] and [[1,1,1,0]] both
    hold allele 1 at index 2, yet sparse [==] marks index 2 unequal, because
    position 2 of the two deviation lists holds the entries [(3,1)] and
    [(2,1)]; the dense comparison of the same data marks it equal. With
    [[0,1]] and [[0,2]] the shared index 1 is past the end of the one-entry
    lists and the comparison raises [IndexError]. *)
Theorem sparse_eq_indexes_by_position :
  let a := IntArray [1; 0; 1; 1] in
  let b := IntArray [1; 1; 1; 0] in
  Sparse.non_refalleles (Sparse.__init__ a) !! 2%nat = Some (3%nat, AInt 1)
  ∧ Sparse.non_refalleles (Sparse.__init__ b) !! 2%nat = Some (2%nat, AInt 1)
  ∧ Sparse.__eq__ (Sparse.__init__ a) (Sparse.__init__ b)
    = Ok [true; false; false; false]
  ∧ GenotypedChromosome.__eq__ a b = Ok (Mask [true; false; true; false])
  ∧ Sparse.__eq__ (Sparse.__init__ (IntArray [0; 1]))
                  (Sparse.__init__ (IntArray [0; 2])) = Raise IndexError.
Proof. repeat split; vm_compute; reflexivity. Qed.


(** A loop whose steps commute does the same in every order. *)
Lemma for_each_perm {A S} (body : S → A → result S) (xs ys : list A) :
  (∀ s x y, (s' ← body s x; body s' y) = (s' ← body s y; body s' x)) →
  xs ≡ₚ ys →
  ∀ s, for_each body xs s = for_each body ys s.
Proof.
  intros Hcomm Hperm.
  induction Hperm as [| x xs ys _ IH | x y xs | xs ys zs _ IH1 _ IH2];
    intros s; simpl.
  - reflexivity.
  - destruct (body s x) as [s' | e]; simpl; [apply IH | reflexivity].
  - specialize (Hcomm s x y).
    destruct (body s x) as [sx | ex], (body s y) as [sy | ey]; simpl in *.
    + destruct (body sy x), (body sx y); simpl; congruence.
    + destruct (body sx y); simpl; congruence.
    + destruct (body sy x); simpl; congruence.
    + congruence.
  - rewrite IH1. apply IH2.
Qed.

Lemma setitem_comm {A} (base : list A) (i j : nat) (v : A) :
  (b ← setitem base i v; setitem b j v) = (b ← setitem base j v; setitem b i v).
Proof.
  unfold setitem.
  destruct (decide (i < length base)%nat) as [Hi | Hi],
           (decide (j < length base)%nat) as [Hj | Hj]; simpl;
    rewrite ?length_insert;
    repeat case_decide; try lia; try reflexivity.
  destruct (decide (i = j)) as [-> | Hne]; [reflexivity |].
  rewrite list_insert_insert_ne by (intros ->; apply Hne; reflexivity). reflexivity.
Qed.

(** The outcome of sparse [==] does not depend on the order in which the
    two sets are iterated. *)
Lemma compare_positions_order (self other : Sparse.t)
      (differing differing' shared shared' : list nat) :
  differing ≡ₚ differing' → shared ≡ₚ shared' →
  Sparse.compare_positions self other differing shared
  = Sparse.compare_positions self other differing' shared'.
Proof.
  intros Hd Hs. unfold Sparse.compare_positions.
  rewrite (for_each_perm _ differing differing')
    by (try exact Hd; intros; apply setitem_comm).
  destruct (for_each _ differing' _) as [base | e]; simpl; [| reflexivity].
  apply for_each_perm; [| exact Hs].
  intros s x y. unfold Sparse.getitem.
  destruct (Sparse.non_refalleles self !! x) as [ax |]; simpl;
    destruct (Sparse.non_refalleles other !! x) as [bx |]; simpl;
    destruct (Sparse.non_refalleles self !! y) as [ay |]; simpl;
    destruct (Sparse.non_refalleles other !! y) as [by_ |]; simpl;
    repeat case_decide; simpl;
    try reflexivity; try apply setitem_comm;
    unfold setitem; repeat case_decide; reflexivity.
Qed.

(** ** Sparse to dense *)

Lemma numpy_has_no_zeroes : np_getattr "zeroes" = Raise AttributeError.
Proof. vm_compute. reflexivity. Qed.

Lemma sparse_has_no_nmark (self : Sparse.t) :
  Sparse.getattr self "nmark" = Raise AttributeError
  ∧ Sparse.getattr self "nonref_alleles" = Raise AttributeError.
Proof. split; vm_compute; reflexivity. Qed.

(** C3 (the code departs from the claim): [todense] returns no sequence at
    all. For every container it raises [AttributeError], at the lookup of
    [np.zeroes]; so the round trip of, say, [[1, 0, 2]] does not give
    [[1, 0, 2]] back. *)
Theorem sparse_todense_raises :
  (∀ self : Sparse.t, Sparse.todense self = Raise AttributeError)
  ∧ Sparse.todense (Sparse.__init__ (IntArray [1; 0; 2]))
    ≠ Ok (IntArray [1; 0; 2]).
Proof.
  assert (H : ∀ self : Sparse.t, Sparse.todense self = Raise AttributeError).
  { intros self. unfold Sparse.todense. rewrite numpy_has_no_zeroes. reflexivity. }
  split; [exact H |]. rewrite H. discriminate.
Qed.

(** ** The sparse missing mask *)

Lemma for_each_app {A S} (body : S → A → result S) (xs ys : list A) (s : S) :
  for_each body (xs ++ ys) s = (s' ← for_each body xs s; for_each body ys s').
Proof.
  revert s. induction xs as [| x xs IH]; intros s; simpl; [reflexivity |].
  destruct (body s x) as [s' | e]; simpl; [apply IH | reflexivity].
Qed.

Lemma py_eqb_str (s t : string) : py_eqb (AStr s) (AStr t) = String.eqb s t.
Proof.
  unfold py_eqb. destruct (String.eqb_spec s t) as [-> | Hne].
  - apply bool_decide_eq_true. reflexivity.
  - apply bool_decide_eq_false. intros [= H]. contradiction.
Qed.

Lemma py_eqb_int_str (z : Z) (t : string) : py_eqb (AInt z) (AStr t) = false.
Proof. apply bool_decide_eq_false. discriminate. Qed.

(** The recorded missing indices, one source element at a time. *)
Lemma array2missing_snoc (xs : list allele) (x : allele) :
  fst <$> List.filter (fun ix : nat * allele => py_eqb ix.2 (AStr ""))
                      (Sparse.enumerate (xs ++ [x]))
  = (fst <$> List.filter (fun ix : nat * allele => py_eqb ix.2 (AStr ""))
                         (Sparse.enumerate xs))
    ++ (if py_eqb x (AStr "") then [length xs] else []).
Proof.
  unfold Sparse.enumerate. rewrite imap_app, List.filter_app, fmap_app.
  f_equal. simpl. rewrite Nat.add_0_r.
  destruct (py_eqb x (AStr "")); reflexivity.
Qed.

Lemma missing_mask_prefix (xs : list allele) (n : nat) :
  (length xs ≤ n)%nat →
  for_each (fun base i => setitem base i true)
           (fst <$> List.filter (fun ix : nat * allele => py_eqb ix.2 (AStr ""))
                                (Sparse.enumerate xs))
           (replicate n false)
  = Ok (((fun x => py_eqb x (AStr "")) <$> xs)
          ++ replicate (n - length xs) false).
Proof.
  induction xs as [| x xs IH] using rev_ind; intros Hn.
  - simpl. rewrite Nat.sub_0_r. reflexivity.
  - rewrite length_app in Hn. simpl in Hn.
    rewrite array2missing_snoc, for_each_app, IH by lia. simpl.
    rewrite fmap_app, length_app. simpl.
    replace (n - length xs)%nat with (S (n - (length xs + 1))) by lia.
    rewrite <- app_assoc. simpl.
    destruct (py_eqb x (AStr "")); simpl; [| reflexivity].
    unfold setitem. case_decide as Hlt.
    + f_equal. rewrite insert_app_r_alt by (rewrite length_fmap; lia).
      rewrite length_fmap, Nat.sub_diag. reflexivity.
    + exfalso. apply Hlt. rewrite length_app, length_fmap. simpl. lia.
Qed.

(** What the sparse [missing] property computes for any source array: the
    mask of the elements equal to the empty string. *)
Lemma sparse_missing_mask (data : ndarray) :
  Sparse.missing (Sparse.__init__ data)
  = Ok ((fun x => py_eqb x (AStr "")) <$> items data).
Proof.
  unfold Sparse.missing, Sparse.__init__, Sparse.array2missing. simpl.
  unfold ndarray_size. rewrite missing_mask_prefix by lia.
  rewrite Nat.sub_diag. simpl. rewrite app_nil_r. reflexivity.
Qed.

(** For string codes the sparse mask is the dense one. *)
Lemma sparse_missing_str (l : list string) :
  Sparse.missing (Sparse.__init__ (StrArray l))
  = Ok (GenotypedChromosome.missing (StrArray l)).
Proof.
  rewrite sparse_missing_mask. simpl. f_equal.
  rewrite <- list_fmap_compose. apply list_fmap_ext.
  intros i s _. simpl. apply py_eqb_str.
Qed.

(** For integer codes the sparse mask is false everywhere. *)
Lemma sparse_missing_int (l : list Z) :
  Sparse.missing (Sparse.__init__ (IntArray l)) = Ok (replicate (length l) false).
Proof.
  rewrite sparse_missing_mask. simpl. f_equal.
  induction l as [| z l IH]; [reflexivity |].
  rewrite !fmap_cons, py_eqb_int_str, IH. reflexivity.
Qed.

(** C5 (the code departs from the claim): for the integer sequence [[0, 1]]
    the sparse [missing] mask is false at index 0 although [s[0]] is the
    integer missing code 0; the dense container's [missing] flags it. *)
Theorem sparse_missing_ignores_integer_zero :
  Sparse.missing (Sparse.__init__ (IntArray [0; 1])) = Ok [false; false]
  ∧ GenotypedChromosome.missing (IntArray [0; 1]) = [true; false]
  ∧ Sparse.missingindices (Sparse.__init__ (IntArray [0; 1])) = [].
Proof. repeat split; vm_compute; reflexivity. Qed.

(** ** Single-marker IBS *)

(** The assertions of [test_ibs] hold of the modelled [ibs]. *)
Example test_ibs :
  let g (x y : Z) : IBS.genotype := (AInt x, AInt y) in
  IBS.ibs (g 2 2) (g 2 2) PyNone = PyInt 2
  ∧ IBS.ibs (g 1 2) (g 1 2) PyNone = PyInt 2
  ∧ IBS.ibs (g 2 1) (g 2 2) PyNone = PyInt 1
  ∧ IBS.ibs (g 2 2) (g 2 1) PyNone = PyInt 1
  ∧ IBS.ibs (g 1 1) (g 2 2) PyNone = PyInt 0
  ∧ IBS.ibs (g 1 1) (g 0 0) (PyInt 64) = PyInt 64
  ∧ IBS.ibs (g 1 1) (g 0 0) PyNone = PyNone
  ∧ IBS.ibs (g 0 0) (g 1 1) PyNone = PyNone.
Proof. repeat split; vm_compute; reflexivity. Qed.

(** A genotype is unordered: swapping the two strands changes nothing. *)
Lemma ibs_strand_order (x y : allele) (g : IBS.genotype) (mv : pyval) :
  IBS.ibs (x, y) g mv = IBS.ibs (y, x) g mv.
Proof.
  unfold IBS.ibs, IBS.all_missing, IBS.alleles. cbn [fst snd].
  rewrite (andb_comm (IBS.is_missing_code x)).
  replace ({[+ x; y +]} : gmultiset allele) with ({[+ y; x +]} : gmultiset allele)
    by multiset_solver.
  reflexivity.
Qed.

(** C4: for all genotypes [a] and [b] and every [missing_value],
    [ibs(a, b) == ibs(b, a)]. *)
Theorem ibs_comm (a b : IBS.genotype) (missing_value : pyval) :
  IBS.ibs a b missing_value = IBS.ibs b a missing_value.
Proof.
  unfold IBS.ibs.
  rewrite (orb_comm (IBS.all_missing a)).
  rewrite (comm_L (∩) (IBS.alleles a)).
  reflexivity.
Qed.

(** ** Chromosome-wide IBS over the two encodings *)

(** Four dense strands of one length always give an array of that length. *)
Lemma chromwide_ibs_dense_ok (a b c d : ndarray) (mv : Z) :
  ndarray_size b = ndarray_size a →
  ndarray_size c = ndarray_size a →
  ndarray_size d = ndarray_size a →
  ∃ states, IBS.chromwide_ibs (IBS.Dense a) (IBS.Dense b)
                              (IBS.Dense c) (IBS.Dense d) mv = Ok states
            ∧ length states = ndarray_size a.
Proof.
  intros Hb Hc Hd. unfold IBS.chromwide_ibs. simpl.
  case_decide as Hsz; [| exfalso; apply Hsz; auto].
  eexists. split; [reflexivity |].
  unfold ndarray_size in *.
  rewrite !length_zip_with. lia.
Qed.

(** Four sparse strands of one length never give an array: building the
    dense view of the first strand already raises. *)
Lemma chromwide_ibs_sparse_raises (a b c d : ndarray) (mv : Z) :
  ndarray_size b = ndarray_size a →
  ndarray_size c = ndarray_size a →
  ndarray_size d = ndarray_size a →
  IBS.chromwide_ibs (IBS.Sparse (Sparse.__init__ a)) (IBS.Sparse (Sparse.__init__ b))
                    (IBS.Sparse (Sparse.__init__ c)) (IBS.Sparse (Sparse.__init__ d)) mv
  = Raise AttributeError.
Proof.
  intros Hb Hc Hd. unfold IBS.chromwide_ibs. simpl.
  case_decide as Hsz; [| exfalso; apply Hsz; auto].
  unfold Sparse.todense. rewrite numpy_has_no_zeroes. reflexivity.
Qed.

(** C1 (the code departs from the claim): on the strands of
    [test_chromwide_ibs] the dense call returns [[2, 2, 1, 0, 64]], the
    array the test expects, while the call on the sparse containers built
    from the same sequences returns no array: it raises [AttributeError]
    out of [todense]. *)
Theorem chromwide_ibs_sparse_differs_from_dense :
  let a := IntArray [2; 1; 1; 1; 0] in
  let b := IntArray [2; 2; 2; 1; 0] in
  let c := IntArray [2; 1; 2; 2; 1] in
  let d := IntArray [2; 2; 2; 2; 1] in
  IBS.chromwide_ibs (IBS.Dense a) (IBS.Dense b) (IBS.Dense c) (IBS.Dense d) 64
  = Ok [2; 2; 1; 0; 64]
  ∧ IBS.chromwide_ibs (IBS.Sparse (Sparse.__init__ a)) (IBS.Sparse (Sparse.__init__ b))
                      (IBS.Sparse (Sparse.__init__ c)) (IBS.Sparse (Sparse.__init__ d)) 64
    = Raise AttributeError.
Proof. split; vm_compute; reflexivity. Qed.

(** ** The marker template *)

Lemma init_equal_lengths (lbl : option string) :
  Template.equal_lengths (Template.__init__ lbl).
Proof. repeat split. Qed.

Lemma add_genotype_equal_lengths (self self' : Template.t)
      (f : Template.frequency_arg) (m : Q) (l : option string) (b : option Z) :
  Template.equal_lengths self →
  Template.add_genotype self f m l b = Ok self' →
  Template.equal_lengths self'.
Proof.
  intros (Hp & Hl & Hf) Hcall. unfold Template.add_genotype in Hcall.
  destruct (Template.to_frequency f) as [q | e]; simpl in Hcall;
    [| discriminate].
  injection Hcall as <-. unfold Template.equal_lengths. simpl.
  rewrite !length_app. simpl. lia.
Qed.

Lemma set_frequency_equal_lengths (self self' : Template.t) (p : Z) (f : Q) :
  Template.equal_lengths self →
  Template.set_frequency self p f = Ok self' →
  Template.equal_lengths self'.
Proof.
  intros (Hp & Hl & Hf) Hcall. unfold Template.set_frequency in Hcall.
  destruct (Template.index _ p) as [i |]; [| discriminate].
  injection Hcall as <-. unfold Template.equal_lengths. simpl.
  rewrite length_insert. auto.
Qed.

(** Every call, raising or not, keeps the four lengths equal. *)
Lemma after_equal_lengths (self : Template.t) (o : Template.op) :
  Template.equal_lengths self → Template.equal_lengths (Template.after self o).
Proof.
  intros H. unfold Template.after.
  destruct (Template.call self o) as [self' |] eqn:Hcall; [| exact H].
  destruct o as [f m l b | p f]; simpl in Hcall.
  - eapply add_genotype_equal_lengths; eassumption.
  - eapply set_frequency_equal_lengths; eassumption.
Qed.

Lemma trace_equal_lengths (self : Template.t) (ops : list Template.op) :
  Template.equal_lengths self →
  Forall Template.equal_lengths (Template.trace self ops).
Proof.
  revert self. induction ops as [| o ops IH]; intros self H; simpl.
  - constructor.
  - constructor; [| apply IH]; apply after_equal_lengths, H.
Qed.

(** C9: starting from a fresh template, after each call of any sequence of
    [add_genotype] and [set_frequency] calls the sequences [genetic_map],
    [physical_map], [labels] and [frequencies] have the same length. *)
Theorem template_equal_lengths (lbl : option string) (ops : list Template.op) :
  Forall Template.equal_lengths (Template.trace (Template.__init__ lbl) ops).
Proof. apply trace_equal_lengths, init_equal_lengths. Qed.

Lemma index_in_range (n : nat) (p : Z) (i : nat) :
  Template.index n p = Some i → (i < n)%nat.
Proof.
  unfold Template.index. repeat case_decide; intros [= <-]; lia.
Qed.

(** C10: on a template with at least [position + 1] markers,
    [set_frequency(position, frequency)] leaves [label], [genetic_map],
    [physical_map] and [labels] as they were, keeps the length of
    [frequencies], and leaves every entry of [frequencies] other than the
    one [position] designates unchanged; for a non-negative [position] the
    call returns normally and that entry now holds [frequency]. *)
Theorem set_frequency_frame (self : Template.t) (position : Z) (frequency : Q) :
  Template.equal_lengths self →
  position + 1 <= Z.of_nat (Template.nmark self) →
  let self' := Template.after self (Template.SetFrequency position frequency) in
  Template.label self' = Template.label self
  ∧ Template.genetic_map self' = Template.genetic_map self
  ∧ Template.physical_map self' = Template.physical_map self
  ∧ Template.labels self' = Template.labels self
  ∧ length (Template.frequencies self') = length (Template.frequencies self)
  ∧ (∀ j : nat,
       Template.index (length (Template.frequencies self)) position ≠ Some j →
       Template.frequencies self' !! j = Template.frequencies self !! j)
  ∧ (0 <= position →
     Template.set_frequency self position frequency = Ok self'
     ∧ Template.frequencies self' !! Z.to_nat position = Some frequency).
Proof.
  intros (_ & _ & Hf) Hpos self'. subst self'.
  unfold Template.after, Template.call, Template.set_frequency, Template.nmark in *.
  destruct (Template.index (length (Template.frequencies self)) position)
    as [i |] eqn:Hi; simpl.
  - do 4 (split; [reflexivity |]).
    split; [apply length_insert |].
    split.
    + intros j Hj. apply list_lookup_insert_ne. congruence.
    + intros H0. split; [reflexivity |].
      apply index_in_range in Hi as Hlt.
      unfold Template.index in Hi. case_decide; [| lia].
      injection Hi as <-. apply list_lookup_insert_eq. exact Hlt.
  - do 6 (split; [reflexivity |]).
    intros H0. exfalso. unfold Template.index in Hi.
    case_decide; [discriminate | lia].
Qed.

Lemma set_frequency_frame_witness :
  let self := Template.mk None [0%Q; 1%Q] [None; None] [1 # 10; (-1)%Q]
                          [None; None] in
  let self' := Template.after self (Template.SetFrequency 1 (1 # 2)) in
  Template.genetic_map self' = Template.genetic_map self
  ∧ Template.frequencies self' !! 0%nat = Template.frequencies self !! 0%nat
  ∧ Template.frequencies self' !! 1%nat = Some (1 # 2).
Proof.
  intros self self'.
  assert (Hinv : Template.equal_lengths self) by (repeat split).
  assert (Hpos : 1 + 1 <= Z.of_nat (Template.nmark self))
    by (vm_compute; discriminate).
  destruct (set_frequency_frame self 1 (1 # 2) Hinv Hpos)
    as (_ & Hg & _ & _ & _ & Hother & Hset).
  split; [exact Hg |].
  split.
  - apply Hother. vm_compute. discriminate.
  - apply Hset. lia.
Defined.

(** ** Generation under linkage equilibrium *)

Lemma greater_spec (r f : Q) : Template.greater r f = true ↔ (f < r)%Q.
Proof.
  unfold Template.greater. rewrite negb_true_iff.
  destruct (Qle_bool r f) eqn:Hle.
  - apply Qle_bool_iff in Hle. split; [discriminate |].
    intros Hlt. exfalso. exact (Qlt_not_le _ _ Hlt Hle).
  - split; [intros _ | reflexivity].
    apply Qnot_le_lt. intros Hle'. apply Qle_bool_iff in Hle'. congruence.
Qed.

(** Code 2 is given exactly by the draws above the frequency, code 1 by the
    others. *)
Lemma marker_code_2_iff (r f : Q) : Template.marker_code r f = 2 ↔ (f < r)%Q.
Proof.
  rewrite <- greater_spec. unfold Template.marker_code, Template.allele_code.
  destruct (Template.greater r f); simpl; split; intros H;
    try reflexivity; discriminate.
Qed.

Lemma marker_code_1_iff (r f : Q) : Template.marker_code r f = 1 ↔ (r <= f)%Q.
Proof.
  unfold Template.marker_code, Template.allele_code, Template.greater.
  destruct (Qle_bool r f) eqn:Hle; simpl.
  - apply Qle_bool_iff in Hle. split; [intros _; exact Hle | reflexivity].
  - split; [discriminate |]. intros H. apply Qle_bool_iff in H. congruence.
Qed.

Lemma draw_codes_equal_length (r fs : list Q) :
  length r = length fs →
  Template.draw_codes r fs = Ok (IntArray (zip_with Template.marker_code r fs)).
Proof.
  intros Hlen. unfold Template.draw_codes, broadcast.
  case_decide; [| contradiction]. do 2 f_equal.
  clear. revert fs. induction r as [| x r IH]; intros [| f fs]; simpl;
    try reflexivity.
  f_equal. apply IH.
Qed.

Lemma all_set_no_error (fs : list Q) :
  Forall (fun f => 0 <= f)%Q fs →
  existsb (fun f => negb (Qle_bool 0 f)) fs = false.
Proof.
  induction 1 as [| f fs Hf _ IH]; simpl; [reflexivity |].
  apply Qle_bool_iff in Hf. rewrite Hf, IH. reflexivity.
Qed.

Lemma generate_one_codes (random : nat → Q) (self : Template.t) :
  Template.equal_lengths self →
  Forall (fun f => 0 <= f)%Q (Template.frequencies self) →
  Template.linkageequilibrium_chromosome random self
  = Ok (IntArray (zip_with Template.marker_code
                           (random <$> seq 0 (Template.nmark self))
                           (Template.frequencies self))).
Proof.
  intros (_ & _ & Hf) Hset. unfold Template.linkageequilibrium_chromosome.
  rewrite all_set_no_error by exact Hset.
  apply draw_codes_equal_length.
  rewrite length_fmap, length_seq. unfold Template.nmark. lia.
Qed.

Lemma generate_rows (random : nat → nat → Q) (n : nat) (fs : list Q)
      (js : list nat) (acc : list ndarray) :
  length fs = n →
  for_each (fun chroms j =>
              r ← Template.draw_codes (random j <$> seq 0 n) fs;
              Ok (chroms ++ [r])) js acc
  = Ok (acc ++ ((fun j => IntArray (zip_with Template.marker_code
                                             (random j <$> seq 0 n) fs))
                  <$> js)).
Proof.
  intros Hlen. revert acc. induction js as [| j js IH]; intros acc; simpl.
  - rewrite app_nil_r. reflexivity.
  - rewrite draw_codes_equal_length by (rewrite length_fmap, length_seq; lia).
    simpl. rewrite IH, <- app_assoc. reflexivity.
Qed.

Lemma generate_many_codes (random : nat → nat → Q) (self : Template.t)
      (nchrom : nat) :
  Template.equal_lengths self →
  Template.linkageequilibrium_chromosomes random self nchrom
  = Ok ((fun j => IntArray (zip_with Template.marker_code
                                     (random j <$> seq 0 (Template.nmark self))
                                     (Template.frequencies self)))
          <$> seq 0 nchrom).
Proof.
  intros (_ & _ & Hf). unfold Template.linkageequilibrium_chromosomes.
  rewrite draw_codes_equal_length
    by (rewrite length_replicate; unfold Template.nmark; lia).
  simpl. rewrite generate_rows by exact Hf. reflexivity.
Qed.

(** Counting grid points. *)

Lemma code2_count_S (N : positive) (f : Q) (m : nat) :
  Template.code2_count N f (S m)
  = (Template.code2_count N f m
     + (if Z.eqb (Template.marker_code (Template.grid_point N m) f) 2
        then 1 else 0))%nat.
Proof.
  unfold Template.code2_count.
  rewrite seq_S, List.filter_app, length_app. simpl.
  destruct (Z.eqb _ 2); reflexivity.
Qed.

(** The largest grid index that does not exceed the frequency. *)
Lemma grid_point_above (N : positive) (f : Q) (k : nat) :
  Template.marker_code (Template.grid_point N k) f = 2
  ↔ (Qnum f * Z.pos N) / Z.pos (Qden f) < Z.of_nat k.
Proof.
  rewrite marker_code_2_iff. unfold Template.grid_point, Qlt. simpl.
  destruct f as [a b]. simpl.
  pose proof (Z.div_mod (a * Z.pos N) (Z.pos b) ltac:(lia)) as Hdm.
  pose proof (Z.mod_pos_bound (a * Z.pos N) (Z.pos b) ltac:(lia)) as Hmod.
  split; intros H; nia.
Qed.

Lemma code2_count_closed (N : positive) (f : Q) (m : nat) :
  (0 <= f)%Q →
  Z.of_nat (Template.code2_count N f m)
  = Z.max 0 (Z.of_nat m - 1 - (Qnum f * Z.pos N) / Z.pos (Qden f)).
Proof.
  intros Hf.
  assert (Ht : 0 <= (Qnum f * Z.pos N) / Z.pos (Qden f)).
  { apply Z.div_pos; [| lia]. unfold Qle in Hf. simpl in Hf. nia. }
  induction m as [| m IH].
  - unfold Template.code2_count. simpl. lia.
  - rewrite code2_count_S, Nat2Z.inj_add, IH.
    destruct (Z.eqb_spec (Template.marker_code (Template.grid_point N m) f) 2)
      as [H2 | H2]; rewrite grid_point_above in H2; lia.
Qed.

Lemma code2_probability_bounds (N : positive) (f : Q) :
  (0 <= f)%Q → (f <= 1)%Q →
  (1 - f - (1 # N) <= Template.code2_probability N f)%Q
  ∧ (Template.code2_probability N f <= 1 - f)%Q.
Proof.
  intros H0 H1. unfold Template.code2_probability.
  rewrite (code2_count_closed N f _ H0), positive_nat_Z.
  destruct f as [a b]. unfold Qle in *. simpl in *.
  pose proof (Z.div_mod (a * Z.pos N) (Z.pos b) ltac:(lia)) as Hdm.
  pose proof (Z.mod_pos_bound (a * Z.pos N) (Z.pos b) ltac:(lia)) as Hmod.
  set (t := (a * Z.pos N) / Z.pos b) in *.
  set (c := Z.max 0 (Z.pos N - 1 - t)).
  assert (Hc : 0 <= c ∧ Z.pos N - 1 - t <= c ∧ (c = 0 ∨ c = Z.pos N - 1 - t)) by lia.
  rewrite !Pos2Z.inj_mul.
  split; nia.
Qed.

(** The code at marker [i] of a generated chromosome is decided by draw [i]
    and frequency [i] alone. *)
Lemma generated_marker (random : nat → Q) (fs : list Q) (i : nat) (f : Q) :
  fs !! i = Some f →
  zip_with Template.marker_code (random <$> seq 0 (length fs)) fs !! i
  = Some (Template.marker_code (random i) f).
Proof.
  intros Hi. rewrite lookup_zip_with, list_lookup_fmap.
  rewrite lookup_seq_lt by (eapply lookup_lt_Some; exact Hi).
  simpl. rewrite Hi. reflexivity.
Qed.

(** C8 (the code departs from the claim): at a marker of frequency 1/10 a
    draw of 1/2 gives code 2, and of the 100 equally likely draws
    0/100 .. 99/100 it is 89 that give code 2, not 10: the code gives
    code 2 with probability 1 - frequency, where the claim and the
    documented minor-allele frequency ask for probability frequency. *)
Lemma code2_probability_is_not_frequency :
  let self := Template.mk None [0%Q] [None] [1 # 10] [None] in
  Template.linkageequilibrium_chromosome (fun _ => 1 # 2) self = Ok (IntArray [2])
  ∧ (Template.code2_probability 100 (1 # 10) == 89 # 100)%Q
  ∧ ¬ (Template.code2_probability 100 (1 # 10) == 1 # 10)%Q.
Proof.
  split; [vm_compute; reflexivity |].
  split; [vm_compute; reflexivity |].
  vm_compute. intros H. discriminate H.
Qed.

(** The same for every template whose frequencies are all set (and in
    [0,1]): both generators return chromosomes whose code at marker [i] is
    2 exactly when draw [i] exceeds [frequency[i]] and 1 otherwise, so
    that on every uniform grid of [N] draws in [0,1) the share of draws
    that give code 2 lies between [1 - frequency[i] - 1/N] and
    [1 - frequency[i]]: the comparison [r > self.frequencies] is the wrong
    way round for a minor-allele frequency. *)
Theorem generated_code2_probability (self : Template.t) :
  Template.equal_lengths self →
  Forall (fun f => 0 <= f ∧ f <= 1)%Q (Template.frequencies self) →
  (∀ random : nat → Q,
     ∃ codes, Template.linkageequilibrium_chromosome random self = Ok (IntArray codes)
              ∧ length codes = Template.nmark self
              ∧ ∀ i f, Template.frequencies self !! i = Some f →
                       codes !! i = Some (Template.marker_code (random i) f))
  ∧ (∀ (random : nat → nat → Q) (nchrom : nat),
       ∃ chroms, Template.linkageequilibrium_chromosomes random self nchrom = Ok chroms
                 ∧ length chroms = nchrom
                 ∧ ∀ j i f, (j < nchrom)%nat →
                            Template.frequencies self !! i = Some f →
                            ∃ codes, chroms !! j = Some (IntArray codes)
                                     ∧ codes !! i = Some (Template.marker_code (random j i) f))
  ∧ (∀ r f : Q, Template.marker_code r f = 2 ↔ (f < r)%Q)
  ∧ (∀ r f : Q, Template.marker_code r f = 1 ↔ (r <= f)%Q)
  ∧ (∀ (N : positive) (f : Q),
       f ∈ Template.frequencies self →
       (1 - f - (1 # N) <= Template.code2_probability N f)%Q
       ∧ (Template.code2_probability N f <= 1 - f)%Q).
Proof.
  intros Hinv Hset.
  assert (Hlen : length (Template.frequencies self) = Template.nmark self)
    by (destruct Hinv as (_ & _ & Hf); exact Hf).
  split; [| split; [| split; [| split]]].
  - intros random. eexists. split.
    + apply generate_one_codes; [exact Hinv |].
      eapply Forall_impl; [exact Hset | intros f [H0 _]; exact H0].
    + split.
      * rewrite length_zip_with, length_fmap, length_seq. lia.
      * intros i f Hi. rewrite <- Hlen. apply generated_marker, Hi.
  - intros random nchrom. eexists. split.
    + apply generate_many_codes, Hinv.
    + split.
      * rewrite length_fmap, length_seq. reflexivity.
      * intros j i f Hj Hi. eexists. split.
        -- rewrite list_lookup_fmap, lookup_seq_lt by exact Hj. reflexivity.
        -- rewrite <- Hlen. apply (generated_marker (random j)), Hi.
  - exact marker_code_2_iff.
  - exact marker_code_1_iff.
  - intros N f Hin. rewrite Forall_forall in Hset.
    destruct (Hset f Hin) as [H0 H1].
    apply code2_probability_bounds; assumption.
Qed.

Lemma generated_code2_probability_witness :
  let self := Template.mk None [0%Q; 1%Q; 2%Q] [None; None; None]
                          [1 # 10; 1 # 2; 9 # 10] [None; None; None] in
  (1 - (1 # 10) - (1 # 1000) <= Template.code2_probability 1000 (1 # 10))%Q
  ∧ (Template.code2_probability 1000 (1 # 10) <= 1 - (1 # 10))%Q.
Proof.
  intros self.
  assert (Hinv : Template.equal_lengths self) by (repeat split).
  assert (Hset : Forall (fun f => 0 <= f ∧ f <= 1)%Q (Template.frequencies self)).
  { repeat constructor; vm_compute; discriminate. }
  apply (proj2 (proj2 (proj2 (proj2
           (generated_code2_probability self Hinv Hset))))).
  simpl. left.
Defined.
(** * Further properties of the code *)

(** ** What the sparse constructor records *)

Lemma elem_of_enumerate {A} (l : list A) (i : nat) (x : A) :
  (i, x) ∈ Sparse.enumerate l ↔ l !! i = Some x.
Proof.
  unfold Sparse.enumerate. rewrite elem_of_lookup_imap. split.
  - intros (j & y & [= -> ->] & H). exact H.
  - intros H. exists i, x. split; [reflexivity | exact H].
Qed.

Lemma elem_of_filter_enumerate {A} (P : nat * A → bool) (l : list A)
      (i : nat) (x : A) :
  (i, x) ∈ List.filter P (Sparse.enumerate l) ↔ l !! i = Some x ∧ P (i, x) = true.
Proof.
  rewrite list_elem_of_In, List.filter_In, <- list_elem_of_In, elem_of_enumerate.
  reflexivity.
Qed.

(** The indices a filtered enumeration keeps, one source element at a
    time. *)
Lemma filter_enumerate_snoc {A} (P : nat * A → bool) (xs : list A) (x : A) :
  List.filter P (Sparse.enumerate (xs ++ [x]))
  = List.filter P (Sparse.enumerate xs)
    ++ (if P (length xs, x) then [(length xs, x)] else []).
Proof.
  unfold Sparse.enumerate. rewrite imap_app, List.filter_app.
  f_equal. simpl. rewrite Nat.add_0_r.
  destruct (P (length xs, x)); reflexivity.
Qed.

Lemma filter_enumerate_sorted {A} (P : nat * A → bool) (xs : list A) :
  StronglySorted lt (fst <$> List.filter P (Sparse.enumerate xs))
  ∧ Forall (fun i => i < length xs)%nat
           (fst <$> List.filter P (Sparse.enumerate xs)).
Proof.
  induction xs as [| x xs [IHs IHb]] using rev_ind.
  - split; constructor.
  - rewrite filter_enumerate_snoc, fmap_app, length_app. simpl. split.
    + destruct (P (length xs, x)); simpl; [| rewrite app_nil_r; exact IHs].
      apply StronglySorted_app_2; [| exact IHs | repeat constructor].
      intros i j Hi Hj. apply list_elem_of_singleton in Hj as ->.
      rewrite Forall_forall in IHb. apply IHb, Hi.
    + apply Forall_app. split.
      * eapply Forall_impl; [exact IHb | simpl; intros; lia].
      * destruct (P (length xs, x)); repeat constructor. simpl. lia.
Qed.

Lemma elem_of_non_refalleles (data : ndarray) (i : nat) (x : allele) :
  (i, x) ∈ Sparse.non_refalleles (Sparse.__init__ data)
  ↔ items data !! i = Some x ∧ x ≠ Sparse.refcode (dtype_of data).
Proof.
  unfold Sparse.__init__, Sparse.array2nonref. simpl.
  rewrite elem_of_filter_enumerate. simpl.
  unfold py_eqb. rewrite negb_true_iff, bool_decide_eq_false. reflexivity.
Qed.

(** X1: the deviation list of a sparse container holds exactly the markers
    whose allele is not the reference code ([0], or ['0'] for strings),
    each with its allele. *)
Theorem non_refalleles_spec (data : ndarray) (i : nat) (x : allele) :
  (i, x) ∈ Sparse.non_refalleles (Sparse.__init__ data)
  ↔ items data !! i = Some x ∧ x ≠ Sparse.refcode (dtype_of data).
Proof. apply elem_of_non_refalleles. Qed.

(** X2: in both lists of a sparse container the recorded indices are
    strictly increasing and below [size]; so no marker is recorded twice. *)
Theorem non_refalleles_sorted (data : ndarray) :
  let s := Sparse.__init__ data in
  StronglySorted lt (fst <$> Sparse.non_refalleles s)
  ∧ Forall (fun i => i < Sparse.size s)%nat (fst <$> Sparse.non_refalleles s)
  ∧ StronglySorted lt (Sparse.missingindices s)
  ∧ Forall (fun i => i < Sparse.size s)%nat (Sparse.missingindices s).
Proof.
  simpl. unfold Sparse.array2nonref, Sparse.array2missing, ndarray_size.
  split; [apply filter_enumerate_sorted |].
  split; [apply filter_enumerate_sorted |].
  split; apply filter_enumerate_sorted.
Qed.

Lemma missingindices_spec (data : ndarray) (i : nat) :
  i ∈ Sparse.missingindices (Sparse.__init__ data)
  ↔ items data !! i = Some (AStr "").
Proof.
  unfold Sparse.__init__, Sparse.array2missing. simpl.
  rewrite list_elem_of_fmap. split.
  - intros ([j x] & -> & Hin). apply elem_of_filter_enumerate in Hin as [Hl Hp].
    simpl in *. unfold py_eqb in Hp. apply bool_decide_eq_true in Hp. subst x.
    exact Hl.
  - intros Hl. exists (i, AStr ""). split; [reflexivity |].
    apply elem_of_filter_enumerate. split; [exact Hl |].
    apply bool_decide_eq_true. reflexivity.
Qed.

(** X3: every index recorded as missing is also recorded as a deviation,
    with the empty string as its allele: the two lists overlap on all
    missing markers. *)
Theorem missing_also_non_reference (data : ndarray) (i : nat) :
  i ∈ Sparse.missingindices (Sparse.__init__ data) →
  (i, AStr "") ∈ Sparse.non_refalleles (Sparse.__init__ data).
Proof.
  rewrite missingindices_spec, elem_of_non_refalleles. intros H.
  split; [exact H |]. unfold Sparse.refcode.
  destruct (is_integer (dtype_of data)); discriminate.
Qed.

Lemma missing_also_non_reference_witness :
  (1%nat, AStr "") ∈ Sparse.non_refalleles
                       (Sparse.__init__ (StrArray ["A"; ""; "0"])).
Proof.
  apply (missing_also_non_reference (StrArray ["A"; ""; "0"]) 1).
  vm_compute. left.
Defined.

(** X4: for every source array the sparse [missing] property returns a
    mask with one entry per marker, true exactly at the elements equal to
    the empty string (so nowhere for integer codes). *)
Theorem sparse_missing_spec (data : ndarray) :
  ∃ mask, Sparse.missing (Sparse.__init__ data) = Ok mask
          ∧ length mask = ndarray_size data
          ∧ ∀ i, mask !! i = Some true ↔ items data !! i = Some (AStr "").
Proof.
  eexists. split; [apply sparse_missing_mask |].
  split; [rewrite length_fmap; reflexivity |].
  intros i. rewrite list_lookup_fmap.
  destruct (items data !! i) as [x |]; simpl; [| split; discriminate].
  unfold py_eqb. split.
  - intros [= H]. apply bool_decide_eq_true in H. subst x. reflexivity.
  - intros [= ->]. reflexivity.
Qed.

(** X5: the outcome of sparse [==], mask or error, does not depend on the
    order in which Python iterates the two index sets. *)
Theorem sparse_eq_iteration_order (self other : Sparse.t)
        (differing shared : list nat) :
  Sparse.size self = Sparse.size other →
  differing ≡ₚ elements (Sparse.symmetric_difference
                           (list_to_set (fst <$> Sparse.non_refalleles self))
                           (list_to_set (fst <$> Sparse.non_refalleles other))) →
  shared ≡ₚ elements ((list_to_set (fst <$> Sparse.non_refalleles self) : gset nat)
                      ∩ list_to_set (fst <$> Sparse.non_refalleles other)) →
  Sparse.compare_positions self other differing shared
  = Sparse.__eq__ self other.
Proof.
  intros Hsz Hd Hs. unfold Sparse.__eq__. case_decide; [contradiction |].
  apply compare_positions_order; assumption.
Qed.

Lemma sparse_eq_iteration_order_witness :
  Sparse.compare_positions (Sparse.__init__ (IntArray [1; 0; 2; 3]))
                           (Sparse.__init__ (IntArray [1; 3; 0; 3]))
                           [2; 1]%nat [3; 0]%nat
  = Sparse.__eq__ (Sparse.__init__ (IntArray [1; 0; 2; 3]))
                  (Sparse.__init__ (IntArray [1; 3; 0; 3])).
Proof.
  apply (sparse_eq_iteration_order (Sparse.__init__ (IntArray [1; 0; 2; 3]))
                                   (Sparse.__init__ (IntArray [1; 3; 0; 3]))).
  - reflexivity.
  - vm_compute. first [apply perm_swap | apply Permutation_refl].
  - vm_compute. first [apply perm_swap | apply Permutation_refl].
Defined.

(** ** Sparse equality *)

Lemma for_each_ext {A S} (body body' : S → A → result S) (xs : list A) (s : S) :
  (∀ s x, body s x = body' s x) →
  for_each body xs s = for_each body' xs s.
Proof.
  intros Hext. revert s. induction xs as [| x xs IH]; intros s; simpl;
    [reflexivity |].
  rewrite Hext. destruct (body' s x); simpl; [apply IH | reflexivity].
Qed.

Lemma elem_of_symmetric_difference (A B : gset nat) (i : nat) :
  i ∈ Sparse.symmetric_difference A B ↔ (i ∈ A ∧ i ∉ B) ∨ (i ∈ B ∧ i ∉ A).
Proof.
  unfold Sparse.symmetric_difference.
  rewrite elem_of_union, !elem_of_difference. reflexivity.
Qed.

Lemma symmetric_difference_comm (A B : gset nat) :
  Sparse.symmetric_difference A B = Sparse.symmetric_difference B A.
Proof.
  apply set_eq. intros i. rewrite !elem_of_symmetric_difference. tauto.
Qed.

(** X6: sparse [==] gives the same outcome, mask or error, whichever
    operand is on the left. *)
Theorem sparse_eq_sym (self other : Sparse.t) :
  Sparse.__eq__ self other = Sparse.__eq__ other self.
Proof.
  unfold Sparse.__eq__.
  destruct (decide (Sparse.size self ≠ Sparse.size other)) as [Hne | Heq];
    destruct (decide (Sparse.size other ≠ Sparse.size self)) as [Hne' | Heq'];
    try reflexivity; try (exfalso; congruence).
  - exfalso. apply Heq'. intros H. apply Hne. symmetry. exact H.
  - exfalso. apply Heq. intros H. apply Hne'. symmetry. exact H.
  - assert (Hsz : Sparse.size self = Sparse.size other)
      by (destruct (decide (Sparse.size self = Sparse.size other)); [assumption | contradiction]).
    rewrite (symmetric_difference_comm (list_to_set (fst <$> Sparse.non_refalleles other))).
    rewrite (comm_L (∩) (list_to_set (fst <$> Sparse.non_refalleles other) : gset nat)).
    unfold Sparse.compare_positions. rewrite Hsz.
    destruct (for_each _ (elements (Sparse.symmetric_difference _ _)) _)
      as [base | e]; simpl; [| reflexivity].
    apply for_each_ext. intros s i. unfold Sparse.getitem.
    destruct (Sparse.non_refalleles self !! i) as [x |],
             (Sparse.non_refalleles other !! i) as [y |]; simpl;
      try reflexivity.
    repeat case_decide; try reflexivity; exfalso; congruence.
Qed.

Lemma for_each_clears (body : list bool → nat → result (list bool))
      (L : list nat) (b m : list bool) :
  clearing body →
  for_each body L b = Ok m →
  length m = length b
  ∧ ∀ j, m !! j = b !! j ∨ (j ∈ L ∧ m !! j = Some false).
Proof.
  intros Hbody. revert b. induction L as [| x L IH]; intros b Hrun; simpl in Hrun.
  - injection Hrun as <-. split; [reflexivity | intros j; left; reflexivity].
  - destruct (body b x) as [b1 |] eqn:Hstep; simpl in Hrun; [| discriminate].
    destruct (IH b1 Hrun) as [Hlen Hm].
    destruct (Hbody b x b1 Hstep) as [-> | [Hx ->]].
    + split; [exact Hlen |]. intros j.
      destruct (Hm j) as [H | [Hin H]]; [left; exact H |].
      right. split; [right; exact Hin | exact H].
    + rewrite length_insert in Hlen. split; [exact Hlen |]. intros j.
      destruct (Hm j) as [H | [Hin H]].
      * destruct (decide (x = j)) as [<- | Hne].
        -- right. split; [left |]. rewrite H. apply list_lookup_insert_eq, Hx.
        -- left. rewrite H. apply list_lookup_insert_ne, Hne.
      * right. split; [right; exact Hin | exact H].
Qed.

Lemma for_each_keeps_false (body : list bool → nat → result (list bool))
      (L : list nat) (b m : list bool) (j : nat) :
  clearing body → for_each body L b = Ok m →
  b !! j = Some false → m !! j = Some false.
Proof.
  intros Hbody Hrun Hj.
  destruct (for_each_clears body L b m Hbody Hrun) as [_ Hm].
  destruct (Hm j) as [H | [_ H]]; [rewrite H; exact Hj | exact H].
Qed.

Lemma setitem_clearing : clearing (fun base i => setitem base i false).
Proof.
  intros b i b' H. unfold setitem in H. case_decide; [| discriminate].
  injection H as <-. right. split; [assumption | reflexivity].
Qed.

Lemma for_each_setitem_all (L : list nat) (b m : list bool) (j : nat) :
  for_each (fun base i => setitem base i false) L b = Ok m →
  j ∈ L → m !! j = Some false.
Proof.
  revert b. induction L as [| x L IH]; intros b Hrun Hin; [inversion Hin |].
  simpl in Hrun.
  destruct (setitem b x false) as [b1 |] eqn:Hstep; simpl in Hrun; [| discriminate].
  apply elem_of_cons in Hin as [-> | Hin]; [| eapply IH; eassumption].
  eapply for_each_keeps_false; [exact setitem_clearing | exact Hrun |].
  unfold setitem in Hstep. case_decide; [| discriminate].
  injection Hstep as <-. apply list_lookup_insert_eq. assumption.
Qed.

Lemma compare_step_clearing (self other : Sparse.t) :
  clearing (fun base i =>
              x ← Sparse.getitem (Sparse.non_refalleles self) i;
              y ← Sparse.getitem (Sparse.non_refalleles other) i;
              if decide (x ≠ y) then setitem base i false else Ok base).
Proof.
  intros b i b' H.
  destruct (Sparse.getitem (Sparse.non_refalleles self) i); simpl in H;
    [| discriminate].
  destruct (Sparse.getitem (Sparse.non_refalleles other) i); simpl in H;
    [| discriminate].
  case_decide.
  - apply setitem_clearing in H. exact H.
  - injection H as <-. left. reflexivity.
Qed.

(** X7: when sparse [==] returns a mask, the mask has [size] entries, a
    marker recorded as a deviation in exactly one operand is marked unequal,
    and a marker below [size] recorded in neither is marked equal. *)
Theorem sparse_eq_mask (self other : Sparse.t) (m : list bool) :
  Sparse.__eq__ self other = Ok m →
  length m = Sparse.size self
  ∧ (∀ i, i ∈ (fst <$> Sparse.non_refalleles self) →
          i ∉ (fst <$> Sparse.non_refalleles other) → m !! i = Some false)
  ∧ (∀ i, i ∈ (fst <$> Sparse.non_refalleles other) →
          i ∉ (fst <$> Sparse.non_refalleles self) → m !! i = Some false)
  ∧ (∀ i, (i < Sparse.size self)%nat →
          i ∉ (fst <$> Sparse.non_refalleles self) →
          i ∉ (fst <$> Sparse.non_refalleles other) → m !! i = Some true).
Proof.
  unfold Sparse.__eq__. case_decide; [discriminate |].
  unfold Sparse.compare_positions.
  destruct (for_each _ (elements (Sparse.symmetric_difference _ _)) _)
    as [base |] eqn:Hfirst; simpl; [| discriminate].
  intros Hsecond.
  destruct (for_each_clears _ _ _ _ setitem_clearing Hfirst) as [Hlen1 Hm1].
  destruct (for_each_clears _ _ _ _ (compare_step_clearing self other) Hsecond)
    as [Hlen2 Hm2].
  rewrite length_replicate in Hlen1.
  assert (Hdiff : ∀ i,
             i ∈ Sparse.symmetric_difference
                   (list_to_set (fst <$> Sparse.non_refalleles self))
                   (list_to_set (fst <$> Sparse.non_refalleles other)) →
             m !! i = Some false).
  { intros i Hi.
    eapply for_each_keeps_false;
      [exact (compare_step_clearing self other) | exact Hsecond |].
    eapply for_each_setitem_all; [exact Hfirst |].
    apply elem_of_elements, Hi. }
  split; [congruence |].
  split; [| split].
  - intros i Hi Hni. apply Hdiff, elem_of_symmetric_difference.
    rewrite !elem_of_list_to_set. left. split; assumption.
  - intros i Hi Hni. apply Hdiff, elem_of_symmetric_difference.
    rewrite !elem_of_list_to_set. right. split; assumption.
  - intros i Hlt HnA HnB.
    destruct (Hm2 i) as [H2 | [Hin _]].
    + rewrite H2. destruct (Hm1 i) as [H1 | [Hin _]].
      * rewrite H1. apply lookup_replicate_2. exact Hlt.
      * exfalso. apply elem_of_elements, elem_of_symmetric_difference in Hin.
        rewrite !elem_of_list_to_set in Hin. tauto.
    + exfalso. apply elem_of_elements, elem_of_intersection in Hin.
      rewrite !elem_of_list_to_set in Hin. tauto.
Qed.

Lemma sparse_eq_mask_witness :
  Sparse.__eq__ (Sparse.__init__ (IntArray [1; 0; 2; 0]))
                (Sparse.__init__ (IntArray [1; 3; 0; 0])) = Ok [true; false; false; true]
  ∧ length [true; false; false; true]
    = Sparse.size (Sparse.__init__ (IntArray [1; 0; 2; 0])).
Proof.
  assert (H : Sparse.__eq__ (Sparse.__init__ (IntArray [1; 0; 2; 0]))
                            (Sparse.__init__ (IntArray [1; 3; 0; 0]))
              = Ok [true; false; false; true]) by (vm_compute; reflexivity).
  split; [exact H |].
  exact (proj1 (sparse_eq_mask _ _ _ H)).
Defined.

Lemma for_each_same_or_indexerror {A S} (body : S → A → result S)
      (xs : list A) (s : S) :
  (∀ s x, body s x = Ok s ∨ body s x = Raise IndexError) →
  for_each body xs s = Ok s ∨ for_each body xs s = Raise IndexError.
Proof.
  intros Hbody. induction xs as [| x xs IH]; simpl; [left; reflexivity |].
  destruct (Hbody s x) as [-> | ->]; simpl; [exact IH | right; reflexivity].
Qed.

(** X8: a sparse container compared with itself is never told apart: the
    outcome is the all-true mask, or [IndexError]. *)
Theorem sparse_eq_self (self : Sparse.t) :
  Sparse.__eq__ self self = Ok (replicate (Sparse.size self) true)
  ∨ Sparse.__eq__ self self = Raise IndexError.
Proof.
  unfold Sparse.__eq__. case_decide; [contradiction |].
  assert (Hempty : Sparse.symmetric_difference
                     (list_to_set (fst <$> Sparse.non_refalleles self))
                     (list_to_set (fst <$> Sparse.non_refalleles self)) = ∅).
  { apply set_eq. intros i. rewrite elem_of_symmetric_difference.
    rewrite elem_of_empty. tauto. }
  unfold Sparse.compare_positions. rewrite Hempty, elements_empty. simpl.
  apply for_each_same_or_indexerror. intros s i. unfold Sparse.getitem.
  destruct (Sparse.non_refalleles self !! i); simpl; [| right; reflexivity].
  case_decide; [contradiction | left; reflexivity].
Qed.

Lemma for_each_raises {A S} (body : S → A → result S) (xs : list A) (s : S)
      (e : exn) :
  (∀ s x e, body s x = Raise e → e = IndexError) →
  for_each body xs s = Raise e → e = IndexError.
Proof.
  intros Hbody. revert s. induction xs as [| x xs IH]; intros s; simpl;
    [discriminate |].
  destruct (body s x) as [s' | e'] eqn:Hstep; simpl.
  - apply IH.
  - intros [= <-]. eapply Hbody, Hstep.
Qed.

Lemma sparse_eq_raises_indexerror (self other : Sparse.t) (e : exn) :
  Sparse.size self = Sparse.size other →
  Sparse.__eq__ self other = Raise e → e = IndexError.
Proof.
  intros Hsz. unfold Sparse.__eq__. case_decide; [contradiction |].
  unfold Sparse.compare_positions.
  destruct (for_each _ (elements (Sparse.symmetric_difference _ _)) _)
    as [base | e1] eqn:Hfirst; simpl.
  - apply for_each_raises. intros s i e'. unfold Sparse.getitem, setitem.
    destruct (Sparse.non_refalleles self !! i); simpl; [| congruence].
    destruct (Sparse.non_refalleles other !! i); simpl; [| congruence].
    repeat case_decide; congruence.
  - intros [= <-]. revert Hfirst. apply for_each_raises.
    intros s i e'. unfold setitem. case_decide; congruence.
Qed.

(** X9: on two containers of one size sparse [==] returns a mask or raises
    [IndexError]; it raises nothing else. *)
Theorem sparse_eq_only_indexerror (self other : Sparse.t) :
  Sparse.size self = Sparse.size other →
  (∃ m, Sparse.__eq__ self other = Ok m)
  ∨ Sparse.__eq__ self other = Raise IndexError.
Proof.
  intros Hsz. destruct (Sparse.__eq__ self other) as [m | e] eqn:Heq.
  - left. exists m. reflexivity.
  - right. f_equal. eapply sparse_eq_raises_indexerror; eassumption.
Qed.

Lemma sparse_eq_only_indexerror_witness :
  (∃ m, Sparse.__eq__ (Sparse.__init__ (IntArray [0; 1]))
                      (Sparse.__init__ (IntArray [0; 2])) = Ok m)
  ∨ Sparse.__eq__ (Sparse.__init__ (IntArray [0; 1]))
                  (Sparse.__init__ (IntArray [0; 2])) = Raise IndexError.
Proof.
  apply (sparse_eq_only_indexerror (Sparse.__init__ (IntArray [0; 1]))
                                   (Sparse.__init__ (IntArray [0; 2]))).
  reflexivity.
Defined.

(** ** The template: counting, reading back, bounds *)

Lemma run_equal_lengths (self : Template.t) (ops : list Template.op) :
  Template.equal_lengths self → Template.equal_lengths (Template.run self ops).
Proof.
  unfold Template.run. revert self.
  induction ops as [| o ops IH]; intros self H; simpl; [exact H |].
  apply IH, after_equal_lengths, H.
Qed.

Lemma nmark_after (self : Template.t) (o : Template.op) :
  Template.nmark (Template.after self o)
  = (Template.nmark self + (if Template.appends o then 1 else 0))%nat.
Proof.
  unfold Template.after, Template.nmark.
  destruct o as [[| q | [| | []]] m l b | p f]; simpl; try lia.
  - rewrite length_app. reflexivity.
  - rewrite length_app. reflexivity.
  - unfold Template.set_frequency.
    destruct (Template.index _ p); simpl; lia.
Qed.

(** X10: the marker count after any sequence of calls is the count before plus
    the number of [add_genotype] calls whose frequency was accepted: calls
    that raise and [set_frequency] never change it, nothing removes a
    marker. *)
Theorem nmark_run (self : Template.t) (ops : list Template.op) :
  Template.nmark (Template.run self ops)
  = (Template.nmark self + length (List.filter Template.appends ops))%nat.
Proof.
  unfold Template.run. revert self.
  induction ops as [| o ops IH]; intros self; simpl; [lia |].
  rewrite IH, nmark_after.
  destruct (Template.appends o); simpl; lia.
Qed.

Lemma iinfo_add (self self' : Template.t) (f : Template.frequency_arg)
      (m : Q) (l : option string) (b : option Z) :
  Template.equal_lengths self →
  Template.add_genotype self f m l b = Ok self' →
  ∃ q, Template.to_frequency f = Ok q
       ∧ Template._iinfo self' = Template._iinfo self ++ [(l, m, b, q)].
Proof.
  intros (Hp & Hl & Hf) Hcall. unfold Template.add_genotype in Hcall.
  destruct (Template.to_frequency f) as [q |]; simpl in Hcall; [| discriminate].
  injection Hcall as <-. exists q. split; [reflexivity |].
  unfold Template._iinfo, Template.__iter__. simpl.
  rewrite !zip_with_app; try reflexivity; rewrite ?length_zip_with; lia.
Qed.

(** X11: markers added to a fresh template are read back by [_iinfo], in
    the order they were added. *)
Theorem iinfo_roundtrip (lbl : option string)
        (markers : list (option string * Q * option Z * Q)) :
  Template._iinfo
    (Template.run (Template.__init__ lbl)
       ((fun mk : option string * Q * option Z * Q =>
           Template.AddGenotype (Template.FreqFloat mk.2)
                                mk.1.1.2 mk.1.1.1 mk.1.2) <$> markers))
  = markers.
Proof.
  induction markers as [| [[[l m] b] q] markers IH] using rev_ind;
    [reflexivity |].
  rewrite fmap_app. unfold Template.run in *. rewrite foldl_app. simpl.
  set (t := foldl Template.after (Template.__init__ lbl) _) in *.
  assert (Hinv : Template.equal_lengths t)
    by (apply (run_equal_lengths (Template.__init__ lbl)), init_equal_lengths).
  unfold Template.after. simpl.
  destruct (iinfo_add t _ (Template.FreqFloat q) m l b Hinv eq_refl)
    as (q' & [= <-] & Hi).
  rewrite Hi, IH. reflexivity.
Qed.

Lemma index_spec (n : nat) (p : Z) :
  Template.index n p = None ↔ ¬ (- Z.of_nat n <= p < Z.of_nat n).
Proof.
  unfold Template.index. repeat case_decide; split; intros Hr;
    try discriminate; try reflexivity; try lia.
Qed.

(** X12: [set_frequency] raises [IndexError] exactly when [position] is outside
    [-n .. n-1], [n] being the number of frequencies; a negative position
    in range writes the entry [n + position], as Python counts from the
    end. *)
Theorem set_frequency_bounds (self : Template.t) (position : Z) (frequency : Q) :
  let n := Z.of_nat (length (Template.frequencies self)) in
  (Template.set_frequency self position frequency = Raise IndexError
   ↔ ¬ (- n <= position < n))
  ∧ (- n <= position < 0 →
     Template.set_frequency self position frequency
     = Template.set_frequency self (n + position) frequency).
Proof.
  simpl. unfold Template.set_frequency. split.
  - rewrite <- index_spec.
    destruct (Template.index _ position); split; intros H;
      try discriminate; reflexivity.
  - intros Hneg. unfold Template.index. repeat case_decide; try lia.
    reflexivity.
Qed.

Lemma set_frequency_bounds_witness :
  Template.set_frequency (Template.mk None [0%Q; 1%Q] [None; None]
                                      [1 # 10; 1 # 5] [None; None])
                         (-1) (1 # 2)
  = Template.set_frequency (Template.mk None [0%Q; 1%Q] [None; None]
                                        [1 # 10; 1 # 5] [None; None])
                           1 (1 # 2).
Proof.
  apply (proj2 (set_frequency_bounds
                  (Template.mk None [0%Q; 1%Q] [None; None]
                               [1 # 10; 1 # 5] [None; None]) (-1) (1 # 2))).
  simpl. lia.
Defined.

(** X13: [size()] raises [IndexError] exactly on a template without
    markers; on any other it returns the float difference of the last and
    the first map position (of the one position and itself when there is
    one marker), whatever the positions in between. *)
Theorem size_spec (float_sub : Q → Q → Q) (self : Template.t) :
  (Template.size float_sub self = Raise IndexError ↔ Template.nmark self = 0%nat)
  ∧ (∀ lo, Template.genetic_map self = [lo] →
           Template.size float_sub self = Ok (float_sub lo lo))
  ∧ (∀ lo mid hi, Template.genetic_map self = lo :: mid ++ [hi] →
                  Template.size float_sub self = Ok (float_sub hi lo)).
Proof.
  unfold Template.size, Template.nmark. split; [| split].
  - destruct (Template.genetic_map self) as [| lo rest] eqn:Hmap;
      [split; reflexivity |].
    split; [| discriminate]. simpl head.
    destruct (last (lo :: rest)) eqn:Hlast; [discriminate |].
    apply last_None in Hlast. discriminate.
  - intros lo ->. reflexivity.
  - intros lo mid hi ->. rewrite app_comm_cons, last_snoc. reflexivity.
Qed.

Lemma size_spec_witness :
  Template.size Qminus
                (Template.mk None [1 # 2; 3 # 2; 5%Q] [None; None; None]
                             [1 # 10; 1 # 5; 1 # 2] [None; None; None])
  = Ok (5 - (1 # 2))%Q.
Proof.
  apply (proj2 (proj2 (size_spec Qminus
           (Template.mk None [1 # 2; 3 # 2; 5%Q] [None; None; None]
                        [1 # 10; 1 # 5; 1 # 2] [None; None; None])))
           (1 # 2) [3 # 2] 5%Q).
  reflexivity.
Defined.

(** ** Generation: errors and missing markers *)

Lemma existsb_negative (fs : list Q) :
  existsb (fun f => negb (Qle_bool 0 f)) fs = true ↔ Exists (fun f => f < 0)%Q fs.
Proof.
  rewrite existsb_exists, Exists_exists. split.
  - intros (f & Hin & Hneg). exists f. split; [apply list_elem_of_In, Hin |].
    apply negb_true_iff in Hneg. apply Qnot_le_lt. intros Hle.
    apply Qle_bool_iff in Hle. congruence.
  - intros (f & Hin & Hneg). exists f. split; [apply list_elem_of_In, Hin |].
    apply negb_true_iff. destruct (Qle_bool 0 f) eqn:Hle; [| reflexivity].
    apply Qle_bool_iff in Hle. exfalso. exact (Qlt_not_le _ _ Hneg Hle).
Qed.

Lemma generate_one_raises_iff (random : nat → Q) (self : Template.t) :
  Template.equal_lengths self →
  (Template.linkageequilibrium_chromosome random self = Raise ValueError
   ↔ Exists (fun f => f < 0)%Q (Template.frequencies self))
  ∧ (¬ Exists (fun f => f < 0)%Q (Template.frequencies self) →
     ∃ c, Template.linkageequilibrium_chromosome random self = Ok c
          ∧ ndarray_size c = Template.nmark self).
Proof.
  intros (_ & _ & Hf). unfold Template.linkageequilibrium_chromosome.
  rewrite <- existsb_negative.
  destruct (existsb _ (Template.frequencies self)).
  - split; [split; reflexivity |]. intros H. exfalso. apply H. reflexivity.
  - rewrite draw_codes_equal_length
      by (rewrite length_fmap, length_seq; unfold Template.nmark; lia).
    split; [split; discriminate |]. intros _. eexists. split; [reflexivity |].
    unfold ndarray_size. simpl.
    rewrite length_fmap, length_zip_with, length_fmap, length_seq.
    unfold Template.nmark. lia.
Qed.

(** X14: on a template whose sequences have one length,
    [linkageequilibrium_chromosome] raises [ValueError] exactly when some
    frequency is negative (unset), and otherwise returns a chromosome with
    one code per marker. *)
Theorem generate_one_error (random : nat → Q) (self : Template.t) :
  Template.equal_lengths self →
  (Template.linkageequilibrium_chromosome random self = Raise ValueError
   ↔ Exists (fun f => f < 0)%Q (Template.frequencies self))
  ∧ (¬ Exists (fun f => f < 0)%Q (Template.frequencies self) →
     ∃ c, Template.linkageequilibrium_chromosome random self = Ok c
          ∧ ndarray_size c = Template.nmark self).
Proof. apply generate_one_raises_iff. Qed.

Lemma generate_one_error_witness :
  Template.linkageequilibrium_chromosome
    (fun _ => 1 # 2)
    (Template.after (Template.__init__ None)
                    (Template.AddGenotype Template.FreqNone 0 None None))
  = Raise ValueError.
Proof.
  apply (proj1 (generate_one_error (fun _ => 1 # 2)
    (Template.after (Template.__init__ None)
                    (Template.AddGenotype Template.FreqNone 0 None None))
    ltac:(repeat split))).
  constructor. reflexivity.
Defined.

(** X15: [linkageequilibrium_chromosomes] has no check for unset frequencies:
    where [linkageequilibrium_chromosome] raises, it returns its
    chromosomes, and at a marker whose frequency is the unset value -1
    every draw of [0,1) gives allele code 2. *)
Theorem generate_many_unset (random : nat → nat → Q) (self : Template.t)
        (nchrom i j : nat) :
  Template.equal_lengths self →
  Template.frequencies self !! i = Some (-1)%Q →
  (∀ a b, 0 <= random a b)%Q →
  (j < nchrom)%nat →
  Template.linkageequilibrium_chromosome (random j) self = Raise ValueError
  ∧ ∃ chroms codes,
      Template.linkageequilibrium_chromosomes random self nchrom = Ok chroms
      ∧ length chroms = nchrom
      ∧ chroms !! j = Some (IntArray codes)
      ∧ codes !! i = Some 2.
Proof.
  intros Hinv Hi Hdraw Hj. split.
  - apply (generate_one_raises_iff (random j) self Hinv).
    apply Exists_exists. exists (-1)%Q. split; [| reflexivity].
    eapply list_elem_of_lookup_2, Hi.
  - rewrite generate_many_codes by exact Hinv.
    eexists. eexists. split; [reflexivity |].
    split; [rewrite length_fmap, length_seq; reflexivity |].
    split; [rewrite list_lookup_fmap, lookup_seq_lt by exact Hj; reflexivity |].
    destruct Hinv as (_ & _ & Hf). unfold Template.nmark. rewrite <- Hf.
    rewrite (generated_marker (random (0 + j)%nat) _ i _ Hi). f_equal.
    apply marker_code_2_iff. eapply Qlt_le_trans; [| apply Hdraw]. reflexivity.
Qed.

Lemma generate_many_unset_witness :
  ∃ chroms codes,
    Template.linkageequilibrium_chromosomes
      (fun _ _ => 1 # 4)
      (Template.mk None [0%Q; 1%Q] [None; None] [1 # 2; (-1)%Q] [None; None])
      3 = Ok chroms
    ∧ length chroms = 3%nat
    ∧ chroms !! 2%nat = Some (IntArray codes)
    ∧ codes !! 1%nat = Some 2.
Proof.
  apply (generate_many_unset
           (fun _ _ => 1 # 4)
           (Template.mk None [0%Q; 1%Q] [None; None] [1 # 2; (-1)%Q] [None; None])
           3 1 2).
  - repeat split.
  - reflexivity.
  - intros _ _. vm_compute. discriminate.
  - lia.
Defined.

Lemma allele_code_not_missing (m : list bool) :
  GenotypedChromosome.missing (IntArray (Template.allele_code <$> m))
  = replicate (length m) false.
Proof.
  induction m as [| b m IH]; [reflexivity |].
  simpl in *. f_equal; [destruct b; reflexivity | exact IH].
Qed.

Lemma draw_codes_not_missing (r fs : list Q) (c : ndarray) :
  Template.draw_codes r fs = Ok c →
  GenotypedChromosome.missing c = replicate (ndarray_size c) false.
Proof.
  unfold Template.draw_codes.
  destruct (broadcast Template.greater r fs) as [m |]; [| discriminate].
  intros [= <-]. rewrite allele_code_not_missing.
  unfold ndarray_size. simpl. rewrite !length_fmap. reflexivity.
Qed.

Lemma generate_rows_not_missing (random2 : nat → nat → Q) (n : nat)
      (fs : list Q) (js : list nat) (acc out : list ndarray) :
  for_each (fun chroms j =>
              r ← Template.draw_codes (random2 j <$> seq 0 n) fs;
              Ok (chroms ++ [r])) js acc = Ok out →
  Forall (fun c => GenotypedChromosome.missing c
                   = replicate (ndarray_size c) false) acc →
  Forall (fun c => GenotypedChromosome.missing c
                   = replicate (ndarray_size c) false) out.
Proof.
  revert acc. induction js as [| j js IH]; intros acc Hrun Hacc; simpl in Hrun.
  - injection Hrun as <-. exact Hacc.
  - destruct (Template.draw_codes (random2 j <$> _) _) as [r |] eqn:Hr;
      simpl in Hrun; [| discriminate].
    eapply IH; [exact Hrun |].
    apply Forall_app. split; [exact Hacc |].
    constructor; [| constructor]. eapply draw_codes_not_missing, Hr.
Qed.

(** X16: a chromosome that either generator returns has no missing marker:
    its [missing] mask is false throughout. *)
Theorem generated_not_missing (random : nat → Q) (random2 : nat → nat → Q)
        (self : Template.t) (nchrom : nat) :
  (∀ c, Template.linkageequilibrium_chromosome random self = Ok c →
        GenotypedChromosome.missing c = replicate (ndarray_size c) false)
  ∧ (∀ chroms,
       Template.linkageequilibrium_chromosomes random2 self nchrom = Ok chroms →
       Forall (fun c => GenotypedChromosome.missing c
                        = replicate (ndarray_size c) false) chroms).
Proof.
  split.
  - intros c. unfold Template.linkageequilibrium_chromosome.
    destruct (existsb _ _); [discriminate | apply draw_codes_not_missing].
  - intros chroms. unfold Template.linkageequilibrium_chromosomes.
    destruct (Template.draw_codes (replicate _ _) _); simpl; [| discriminate].
    intros Hrun. eapply generate_rows_not_missing; [exact Hrun | constructor].
Qed.

Lemma generated_not_missing_witness :
  GenotypedChromosome.missing (IntArray [2; 1])
  = replicate (ndarray_size (IntArray [2; 1])) false.
Proof.
  apply (proj1 (generated_not_missing
                  (fun _ => 3 # 10) (fun _ _ => 3 # 10)
                  (Template.mk None [0%Q; 1%Q] [None; None]
                               [1 # 10; 1 # 2] [None; None]) 0)).
  reflexivity.
Defined.

(** X17: [empty_chromosome()] has one entry per marker and every entry is
    flagged missing by the dense container; the sparse container built from
    it records no deviation and flags nothing. *)
Theorem empty_chromosome_missing (self : Template.t) :
  let c := Template.empty_chromosome self in
  ndarray_size c = Template.nmark self
  ∧ GenotypedChromosome.missing c = replicate (Template.nmark self) true
  ∧ Sparse.non_refalleles (Sparse.__init__ c) = []
  ∧ Sparse.missing (Sparse.__init__ c)
    = Ok (replicate (Template.nmark self) false).
Proof.
  simpl. unfold Template.empty_chromosome. simpl.
  generalize (Template.nmark self) as n. intros n.
  split; [unfold ndarray_size; simpl;
          rewrite length_fmap, length_replicate; reflexivity |].
  split; [induction n as [| n IH]; simpl; [reflexivity | f_equal; exact IH] |].
  split.
  - destruct (Sparse.non_refalleles (Sparse.__init__ (IntArray (replicate n 0))))
      as [| [i x] rest] eqn:Hnr; [exact Hnr |].
    assert (Hin : (i, x) ∈ Sparse.non_refalleles
                             (Sparse.__init__ (IntArray (replicate n 0))))
      by (rewrite Hnr; left).
    apply elem_of_non_refalleles in Hin as [Hl Hx]. simpl in Hl.
    rewrite list_lookup_fmap in Hl.
    destruct (replicate n 0 !! i) as [z |] eqn:Hz; [| discriminate].
    apply lookup_replicate in Hz as [-> _]. simpl in Hl.
    injection Hl as <-. exfalso. apply Hx. reflexivity.
  - rewrite sparse_missing_int, length_replicate. reflexivity.
Qed.

(** ** Genotypes from a flat allele sequence *)

(** The example of the docstring: the series [1 2 1 2 1 2] becomes
    [chrom1 = [1,1,1]] and [chrom2 = [2,2,2]]. *)
Example sequential_alleles_docstring (int_code_fits : bool) :
  IO.genotypes_from_sequential_alleles int_code_fits
    [Template.mk None [0%Q; 1%Q; 2%Q] [None; None; None]
                 [1 # 2; 1 # 2; 1 # 2] [None; None; None]]
    (StrArray ["1"; "2"; "1"; "2"; "1"; "2"]) (AStr "0") false
  = Ok [(IO.DenseChrom (StrArray ["1"; "1"; "1"]),
         IO.DenseChrom (StrArray ["2"; "2"; "2"]))].
Proof. vm_compute. reflexivity. Qed.

(** X18: when the type of [missing_code] does not fit the data, the call does
    not get as far as its [ValueError]: formatting the message raises
    [IndexError], for every input. The default [missing_code='0'] on
    integer data is such a call, and so is an integer code on data of an
    integer dtype it does not fit. *)
Theorem sequential_alleles_type_mismatch (int_code_fits : bool)
        (chromosomes : list Template.t) (data : ndarray) (missing_code : allele)
        (sparse : bool) :
  IO.issubdtype int_code_fits (IO.type_of missing_code) (dtype_of data) = false →
  IO.genotypes_from_sequential_alleles int_code_fits chromosomes data
                                       missing_code sparse
  = Raise IndexError.
Proof.
  intros H. unfold IO.genotypes_from_sequential_alleles. rewrite H. reflexivity.
Qed.

Lemma sequential_alleles_type_mismatch_witness :
  IO.genotypes_from_sequential_alleles true [] (IntArray [1; 2; 1; 2])
                                       (AStr "0") false
  = Raise IndexError.
Proof.
  apply sequential_alleles_type_mismatch. reflexivity.
Defined.

Lemma stride2_fmap {A B} (f : A → B) (l : list A) :
  IO.stride2 (f <$> l) = f <$> IO.stride2 l.
Proof.
  assert (H : IO.stride2 (f <$> l) = f <$> IO.stride2 l
              ∧ ∀ x, IO.stride2 (f <$> (x :: l)) = f <$> IO.stride2 (x :: l)).
  { induction l as [| y l [IH1 IH2]]; [split; [| intros x]; reflexivity |].
    split; [apply IH2 |]. intros x. simpl. f_equal. exact IH1. }
  exact (proj1 H).
Qed.

Lemma stride2_lookup {A} (l : list A) (i : nat) :
  IO.stride2 l !! i = l !! (2 * i)%nat.
Proof.
  assert (H : ∀ i, IO.stride2 l !! i = l !! (2 * i)%nat
                   ∧ ∀ x, IO.stride2 (x :: l) !! i = (x :: l) !! (2 * i)%nat).
  { induction l as [| y l IH]; intros j.
    - split; [reflexivity |]. intros x. destruct j; reflexivity.
    - split; [apply IH |]. intros x. destruct j as [| j]; [reflexivity |].
      simpl. replace (j + S (j + 0))%nat with (S (2 * j)) by lia. simpl.
      apply IH. }
  apply H.
Qed.

Lemma items_strand_a (data : ndarray) :
  items (IO.strand_a data) = IO.stride2 (items data).
Proof. destruct data; simpl; symmetry; apply stride2_fmap. Qed.

Lemma items_strand_b (data : ndarray) :
  items (IO.strand_b data) = IO.stride2 (drop 1 (items data)).
Proof. destruct data; simpl; rewrite <- stride2_fmap, fmap_drop; reflexivity. Qed.

Lemma items_slice (start stop : nat) (a : ndarray) :
  items (IO.slice start stop a) = take (stop - start) (drop start (items a)).
Proof. destruct a; simpl; rewrite fmap_take, fmap_drop; reflexivity. Qed.

Lemma split_strands_length (sparse : bool) (a b : ndarray) (start : nat)
      (sizes : list nat) :
  length (IO.split_strands sparse a b start sizes) = length sizes.
Proof.
  revert start. induction sizes as [| s sizes IH]; intros start; simpl;
    [reflexivity | rewrite IH; reflexivity].
Qed.

Lemma split_strands_lookup (sparse : bool) (a b : ndarray) (start : nat)
      (sizes : list nat) (k size : nat) :
  sizes !! k = Some size →
  let s := (start + sum_list (take k sizes))%nat in
  IO.split_strands sparse a b start sizes !! k
  = Some (IO.Chromobj sparse (IO.slice s (s + size) a),
          IO.Chromobj sparse (IO.slice s (s + size) b)).
Proof.
  revert start k. induction sizes as [| s0 sizes IH]; intros start k Hk;
    [discriminate |].
  destruct k as [| k]; simpl in *.
  - injection Hk as ->. rewrite Nat.add_0_r. reflexivity.
  - rewrite (IH (start + s0)%nat k Hk). simpl.
    rewrite Nat.add_assoc. reflexivity.
Qed.

Lemma dtype_of_slices (start stop : nat) (data : ndarray) (c : allele) :
  dtype_of (IO.slice start stop (IO.strand_a (IO.replace_missing data c)))
  = dtype_of data
  ∧ dtype_of (IO.slice start stop (IO.strand_b (IO.replace_missing data c)))
    = dtype_of data.
Proof. destruct data; split; reflexivity. Qed.

(** X19: when [np.issubdtype] accepts the [missing_code] for the data, the
    call returns one pair per chromosome. Both strands of chromosome [k]
    keep the dtype of the data, and entry [j] of a strand exists only for
    [j] below the chromosome's marker count: it is then the data element
    (missing code already replaced) at position [2(s+j)] for strand a and
    [2(s+j)+1] for strand b, [s] being the marker count of the chromosomes
    before [k]. Where the data run out the strand ends early, without an
    error. *)
Theorem sequential_alleles_layout (int_code_fits : bool)
        (chromosomes : list Template.t) (data : ndarray) (missing_code : allele)
        (sparse : bool) :
  IO.issubdtype int_code_fits (IO.type_of missing_code) (dtype_of data) = true →
  ∃ genotypes,
    IO.genotypes_from_sequential_alleles int_code_fits chromosomes data
                                         missing_code sparse
    = Ok genotypes
    ∧ length genotypes = length chromosomes
    ∧ ∀ k t, chromosomes !! k = Some t →
        ∃ a b, genotypes !! k = Some (IO.Chromobj sparse a, IO.Chromobj sparse b)
               ∧ dtype_of a = dtype_of data
               ∧ dtype_of b = dtype_of data
               ∧ ∀ j,
                   let s := sum_list (Template.nmark <$> take k chromosomes) in
                   items a !! j
                   = (if decide (j < Template.nmark t)%nat
                      then items (IO.replace_missing data missing_code)
                             !! (2 * (s + j))%nat
                      else None)
                   ∧ items b !! j
                     = (if decide (j < Template.nmark t)%nat
                        then items (IO.replace_missing data missing_code)
                               !! (2 * (s + j) + 1)%nat
                        else None).
Proof.
  intros Hty. unfold IO.genotypes_from_sequential_alleles. rewrite Hty. simpl.
  eexists. split; [reflexivity |].
  split; [rewrite split_strands_length, length_fmap; reflexivity |].
  intros k t Hk.
  assert (Hsz : (Template.nmark <$> chromosomes) !! k = Some (Template.nmark t))
    by (rewrite list_lookup_fmap, Hk; reflexivity).
  eexists. eexists. split.
  - rewrite (split_strands_lookup _ _ _ _ _ _ _ Hsz). reflexivity.
  - split; [apply dtype_of_slices |]. split; [apply dtype_of_slices |].
    intros j. simpl. rewrite <- fmap_take.
    set (s := sum_list (Template.nmark <$> take k chromosomes)).
    rewrite !items_slice, items_strand_a, items_strand_b.
    replace (s + Template.nmark t - s)%nat with (Template.nmark t) by lia.
    case_decide as Hj.
    + rewrite !lookup_take_lt, !lookup_drop, !stride2_lookup, lookup_drop
        by exact Hj.
      split; f_equal; lia.
    + rewrite !lookup_take_ge by lia. split; reflexivity.
Qed.

Lemma sequential_alleles_layout_witness :
  ∃ genotypes,
    IO.genotypes_from_sequential_alleles true
      [Template.mk None [0%Q] [None] [1 # 2] [None];
       Template.mk None [0%Q; 1%Q] [None; None] [1 # 2; 1 # 2] [None; None]]
      (IntArray [1; 2; 9; 1; 2; 2]) (AInt 9) false = Ok genotypes
    ∧ length genotypes = 2%nat.
Proof.
  destruct (sequential_alleles_layout true
      [Template.mk None [0%Q] [None] [1 # 2] [None];
       Template.mk None [0%Q; 1%Q] [None; None] [1 # 2; 1 # 2] [None; None]]
      (IntArray [1; 2; 9; 1; 2; 2]) (AInt 9) false eq_refl)
    as (genotypes & Hcall & Hlen & _).
  exists genotypes. split; [exact Hcall | exact Hlen].
Defined.

(** X20: after the replacement a dense chromosome flags a position as missing
    exactly where the data held the missing code or already held the
    sentinel ([0], or the empty string). *)
Theorem replace_missing_mask :
  (∀ (l : list Z) (c : Z),
     GenotypedChromosome.missing (IO.replace_missing (IntArray l) (AInt c))
     = (fun z => Z.eqb z c || Z.eqb z 0) <$> l)
  ∧ (∀ (l : list string) (c : string),
       GenotypedChromosome.missing (IO.replace_missing (StrArray l) (AStr c))
       = (fun s => String.eqb s c || String.eqb s "") <$> l).
Proof.
  split; intros l c; simpl; rewrite <- list_fmap_compose;
    apply list_fmap_ext; intros i x _; simpl.
  - unfold py_eqb. destruct (Z.eqb_spec x c) as [-> | Hne].
    + rewrite bool_decide_eq_true_2 by reflexivity. reflexivity.
    + rewrite bool_decide_eq_false_2 by congruence. reflexivity.
  - rewrite py_eqb_str. destruct (String.eqb x c); reflexivity.
Qed.
